(** * Update resolution protocol of capucho-back, shallow embedding

    The embedded code is the [UpdateService] class of
    [src/services/supabaseService.ts] (the channel-pointer implementation),
    plus [getAvailableChannels], [assignChannel], [getDeviceChannel] and
    [logStats] of [src/services/updateService.ts], and the request-field
    normalizer middleware [normalizeRequestFields].
    Strings are Stdlib strings (ASCII); JavaScript numbers produced by
    [parseInt] are modelled as exact integers [Z]. *)

From Stdlib Require Import String Ascii List ZArith Lia Bool.
Import ListNotations.
Open Scope string_scope.
Open Scope list_scope.
Open Scope Z_scope.

(** ** JavaScript helpers *)
Module JS.

(** [StrWhiteSpaceChar] restricted to ASCII: TAB, LF, VT, FF, CR, SP. *)
Definition is_ws (c : ascii) : bool :=
  let n := nat_of_ascii c in
  (Nat.eqb n 9 || Nat.eqb n 10 || Nat.eqb n 11 || Nat.eqb n 12
   || Nat.eqb n 13 || Nat.eqb n 32)%bool.

Fixpoint trim_start (s : string) : string :=
  match s with
  | EmptyString => EmptyString
  | String c r => if is_ws c then trim_start r else s
  end.

(** Value of [c] as a digit in radix [r] (10 or 16), if it is one. *)
Definition digit_val (r : Z) (c : ascii) : option Z :=
  let n := Z.of_nat (nat_of_ascii c) in
  let d :=
    if (48 <=? n) && (n <=? 57) then Some (n - 48)
    else if (97 <=? n) && (n <=? 122) then Some (n - 87)
    else if (65 <=? n) && (n <=? 90) then Some (n - 55)
    else None in
  match d with
  | Some v => if v <? r then Some v else None
  | None => None
  end.

(** Digits of the longest prefix of [s] made of radix-[r] digits. *)
Fixpoint digit_prefix (r : Z) (s : string) : list Z :=
  match s with
  | EmptyString => []
  | String c t =>
      match digit_val r c with
      | Some v => v :: digit_prefix r t
      | None => []
      end
  end.

Definition digits_value (r : Z) (ds : list Z) : Z :=
  fold_left (fun acc d => acc * r + d) ds 0.

(** [parseInt(s)] with no radix argument (ECMA-262, 19.2.5); [None] is NaN. *)
Definition parseInt (s : string) : option Z :=
  let s1 := trim_start s in
  let '(sign, s2) :=
    match s1 with
    | String "-" t => (-1, t)
    | String "+" t => (1, t)
    | _ => (1, s1)
    end in
  let '(r, s3) :=
    match s2 with
    | String "0" (String "x" t) => (16, t)
    | String "0" (String "X" t) => (16, t)
    | _ => (10, s2)
    end in
  match digit_prefix r s3 with
  | [] => None
  | ds => Some (sign * digits_value r ds)
  end.

(** [n || 0] for a number: NaN and (-)0 are falsy. *)
Definition or_zero (n : option Z) : Z :=
  match n with Some z => z | None => 0 end.

(** [s || d] for a possibly missing string: [undefined], [null] and [""]
    are falsy. *)
Definition or_str (s : option string) (d : string) : string :=
  match s with
  | Some v => if String.eqb v "" then d else v
  | None => d
  end.

(** [a || b] for two possibly missing strings. *)
Definition or_opt (a b : option string) : option string :=
  match a with
  | Some v => if String.eqb v "" then b else a
  | None => b
  end.

(** Truthiness of a possibly missing string. *)
Definition truthy (s : option string) : bool :=
  match s with Some v => negb (String.eqb v "") | None => false end.

(** [s.split(".")]. *)
Fixpoint split_dot (s : string) : list string :=
  match s with
  | EmptyString => [EmptyString]
  | String c r =>
      let parts := split_dot r in
      if Ascii.eqb c "." then EmptyString :: parts
      else match parts with
           | p :: ps => String c p :: ps
           | [] => [String c EmptyString]
           end
  end.

End JS.

(** ** Version comparator ([compareVersions], supabaseService.ts 1075-1091) *)
Module Version.
Import JS.

(** [v.split(".").map((p) => parseInt(p) || 0)] *)
Definition parts (v : string) : list Z :=
  map (fun p => or_zero (parseInt p)) (split_dot v).

(** [while (parts.length < maxLen) parts.push(0)] *)
Definition pad (l : list Z) (maxLen : nat) : list Z :=
  l ++ repeat 0 (maxLen - length l).

(** The [for] loop over the padded arrays. *)
Fixpoint cmp_loop (l1 l2 : list Z) : Z :=
  match l1, l2 with
  | p1 :: r1, p2 :: r2 =>
      if p1 >? p2 then 1 else if p1 <? p2 then -1 else cmp_loop r1 r2
  | _, _ => 0
  end.

Definition compareVersions (v1 v2 : string) : Z :=
  let parts1 := parts v1 in
  let parts2 := parts v2 in
  let maxLen := Nat.max (length parts1) (length parts2) in
  cmp_loop (pad parts1 maxLen) (pad parts2 maxLen).

(** Lexicographic comparison of integer tuples (reference order). *)
Fixpoint lex (l1 l2 : list Z) : comparison :=
  match l1, l2 with
  | [], [] => Eq
  | [], _ :: _ => Lt
  | _ :: _, [] => Gt
  | x :: xs, y :: ys =>
      match Z.compare x y with Eq => lex xs ys | c => c end
  end.

Definition cmp_to_Z (c : comparison) : Z :=
  match c with Lt => -1 | Eq => 0 | Gt => 1 end.

(** Segment reading as the spec words it: a segment made only of decimal
    digits is its value; any other segment (empty, signed, with letters) is
    non-numeric and reads as 0. *)
Fixpoint all_digits (s : string) : bool :=
  match s with
  | EmptyString => true
  | String c t => match digit_val 10 c with Some _ => all_digits t | None => false end
  end.

Definition spec_segment (p : string) : Z :=
  if all_digits p && negb (String.eqb p "") then digits_value 10 (digit_prefix 10 p)
  else 0.

Definition spec_compare (v1 v2 : string) : Z :=
  let s1 := map spec_segment (split_dot v1) in
  let s2 := map spec_segment (split_dot v2) in
  let n := Nat.max (length s1) (length s2) in
  cmp_to_Z (lex (pad s1 n) (pad s2 n)).

End Version.

(** ** Backing store (Supabase tables read or written by the protocol)

    Columns are the ones the embedded queries select or write; timestamps
    ([updated_at], [created_at] set from [new Date()]) are left out, no claim
    depends on them. *)
Module Store.

(** [apps]: surrogate [id] and external [app_id]. *)
Record App := mkApp { app_row_id : string; app_app_id : string }.

(** [app_versions]: the bundles. *)
Record AppVersion := mkAppVersion {
  av_id : string;
  av_app_id : string;
  version_name : string;
  external_url : option string;
  r2_path : option string;
  checksum : option string;
  session_key : option string;
  min_update_version : option string;
  av_platform : string;
  av_active : bool
}.

(** [channels]: per-app channels with their policy flags and the
    [current_version_id] pointer to the active bundle. *)
Record Channel := mkChannel {
  ch_id : string;
  ch_app_id : string;
  ch_name : string;
  current_version_id : option string;
  is_public : bool;
  allow_device_self_set : bool
}.

(** [device_channels]: device registrations, keyed by a generated [id]. *)
Record DeviceChannel := mkDeviceChannel {
  dc_id : nat;
  dc_device_id : string;
  dc_channel_id : string;
  dc_platform : string
}.

(** [update_logs]: check-in events. *)
Record UpdateLog := mkUpdateLog {
  ul_device_id : string;
  ul_app_id : string;
  ul_current_version : option string;
  ul_new_version : string;
  ul_platform : string;
  ul_action : string
}.

(** The store; [failing_writes] lists the tables whose [insert]/[update]
    the database rejects (the supabase client then reports an [error]). *)
Record Store := mkStore {
  apps : list App;
  channels : list Channel;
  app_versions : list AppVersion;
  device_channels : list DeviceChannel;
  update_logs : list UpdateLog;
  next_id : nat;
  failing_writes : list string
}.

Definition with_device_channels (s : Store) (l : list DeviceChannel) (n : nat) : Store :=
  mkStore (apps s) (channels s) (app_versions s) l (update_logs s) n (failing_writes s).

Definition with_update_logs (s : Store) (l : list UpdateLog) : Store :=
  mkStore (apps s) (channels s) (app_versions s) (device_channels s) l
          (next_id s) (failing_writes s).

(** [.single()] / [.maybeSingle()]: a row only when exactly one row matches;
    no row gives [data: null], several rows give an error and [data: null]. *)
Definition one_row {A} (l : list A) : option A :=
  match l with [x] => Some x | _ => None end.

End Store.

(** ** Results and the service monad *)
Module Monad.
Import Store.

(** A call either returns or throws (a rejected promise). *)
Inductive Result (A : Type) := Ok (a : A) | Throw (e : string).
Arguments Ok {A}. Arguments Throw {A}.

Definition M (A : Type) := Store -> Result A * Store.

Definition ret {A} (a : A) : M A := fun s => (Ok a, s).
Definition bind {A B} (m : M A) (k : A -> M B) : M B :=
  fun s => match m s with
           | (Ok a, s') => k a s'
           | (Throw e, s') => (Throw e, s')
           end.
Definition get : M Store := fun s => (Ok s, s).
Definition throw {A} (e : string) : M A := fun s => (Throw e, s).

Notation "x <- c ;; k" := (bind c (fun x => k))
  (at level 61, c at next level, right associativity).
Notation "c ;; k" := (bind c (fun _ => k)) (at level 61, right associativity).

Definition writable (s : Store) (table : string) : bool :=
  negb (existsb (String.eqb table) (failing_writes s)).

(** [supabaseService.insert("update_logs", [row])]: throws a
    [DatabaseError] when the database rejects the write. *)
Definition insert_update_log (row : UpdateLog) : M unit :=
  fun s => if writable s "update_logs"
           then (Ok tt, with_update_logs s (update_logs s ++ [row]))
           else (Throw "Insert failed", s).

(** [supabaseService.insert("device_channels", [row])]; the row gets a fresh id. *)
Definition insert_device_channel (device channel platform : string) : M unit :=
  fun s => if writable s "device_channels"
           then (Ok tt, with_device_channels s
                   (device_channels s ++ [mkDeviceChannel (next_id s) device channel platform])
                   (S (next_id s)))
           else (Throw "Insert failed", s).

(** [supabaseService.update("device_channels", { platform }, { id })]. *)
Definition update_device_channel (id : nat) (platform : string) : M unit :=
  fun s => if writable s "device_channels"
           then (Ok tt, with_device_channels s
                   (map (fun r => if Nat.eqb (dc_id r) id
                                  then mkDeviceChannel (dc_id r) (dc_device_id r) (dc_channel_id r) platform
                                  else r) (device_channels s))
                   (next_id s))
           else (Throw "Update failed", s).

End Monad.

(** ** [UpdateService] of supabaseService.ts *)
Module Service.
Import JS Version Store Monad.

(** The fields of the device-check request body that [checkForUpdate] reads. *)
Record UpdateRequest := mkUpdateRequest {
  appId : string;
  channel : option string;
  defaultChannel : option string;
  default_channel : option string;
  versionCode : option string;
  versionBuild : option string;
  req_version_name : option string;
  platform : string;
  deviceId : option string
}.

(** The JSON object returned; an absent key is [None]. *)
Record UpdateResponse := mkUpdateResponse {
  r_message : option string;
  r_error : option string;
  r_version_name : option string;
  r_url : option string;
  r_checksum : option string;
  r_sessionKey : option string
}.

Definition resp_empty : UpdateResponse :=
  mkUpdateResponse None None None None None None.

Definition resp_message (m : string) : UpdateResponse :=
  mkUpdateResponse (Some m) None None None None None.

(** Decimal rendering of an integer, as in a template literal. *)
Fixpoint dec_aux (fuel : nat) (n : Z) (acc : string) : string :=
  match fuel with
  | O => acc
  | S f =>
      let acc' := String (ascii_of_nat (48 + Z.to_nat (n mod 10))) acc in
      if n / 10 =? 0 then acc' else dec_aux f (n / 10) acc'
  end.

Definition show_Z (z : Z) : string :=
  let fuel := S (Z.to_nat (Z.log2 (Z.abs z))) in
  if z <? 0 then String "-" (dec_aux fuel (- z) EmptyString)
  else dec_aux fuel z EmptyString.

(** [resolveAppUuid] (lines 608-622). *)
Definition resolveAppUuid (s : Store) (appIdString : string) : option string :=
  match filter (fun a => String.eqb (app_app_id a) appIdString) (apps s) with
  | a :: _ => Some (app_row_id a)
  | [] => None
  end.

(** [request.channel || request.defaultChannel || request.default_channel
    || "staging"] (lines 636-640). *)
Definition channelToUse (req : UpdateRequest) : string :=
  or_str (channel req)
    (or_str (defaultChannel req) (or_str (default_channel req) "staging")).

(** [parseInt(request.versionCode || request.versionBuild || "0") || 0]. *)
Definition userNativeVersion (req : UpdateRequest) : Z :=
  or_zero (parseInt (or_str (versionCode req) (or_str (versionBuild req) "0"))).

(** Sentinel normalisation (lines 647-650). *)
Definition currentVersion (req : UpdateRequest) : string :=
  match req_version_name req with
  | Some "builtin" => "0.0.0"
  | v => or_str v "0.0.0"
  end.

(** [parseInt(latestUpdate.min_update_version || "0") || 0]. *)
Definition minNativeRequired (v : AppVersion) : Z :=
  or_zero (parseInt (or_str (min_update_version v) "0")).

(** The channel query of lines 663-688: the channel row by app and name
    ([.single()]) and the bundle its [current_version_id] points to. *)
Definition channelLookup (s : Store) (appUuid name : string)
  : option (Channel * AppVersion) :=
  match one_row (filter (fun c => String.eqb (ch_app_id c) appUuid
                                  && String.eqb (ch_name c) name) (channels s)) with
  | None => None
  | Some c =>
      match current_version_id c with
      | None => None
      | Some vid =>
          match find (fun v => String.eqb (av_id v) vid) (app_versions s) with
          | None => None
          | Some v => Some (c, v)
          end
      end
  end.

(** [generateDownloadUrl]: every path returns its argument unchanged. *)
Definition generateDownloadUrl (downloadUrl : option string) : option string :=
  downloadUrl.

Definition resp_update (v : AppVersion) : UpdateResponse :=
  mkUpdateResponse None None (Some (version_name v))
    (generateDownloadUrl (or_opt (external_url v) (r2_path v)))
    (checksum v) (or_opt (session_key v) None).

Definition resp_native_gate (minNative native : Z) : UpdateResponse :=
  mkUpdateResponse (Some "native_update_required")
    (Some (String.concat "" ["Native version "; show_Z minNative;
                             " required. You have "; show_Z native; "."]))
    None None None None.

(** [device_channels] rows of a device on a channel ([.maybeSingle()]). *)
Definition device_channel_row (s : Store) (device chan : string) : option DeviceChannel :=
  one_row (filter (fun r => String.eqb (dc_device_id r) device
                            && String.eqb (dc_channel_id r) chan) (device_channels s)).

(** The check-in side effect of lines 739-772. *)
Definition checkIn (req : UpdateRequest) (appUuid : string) (c : Channel)
  (v : AppVersion) : M unit :=
  match deviceId req with
  | Some d =>
      if String.eqb d "" then ret tt else
      insert_update_log (mkUpdateLog d appUuid (req_version_name req)
                           (version_name v) (platform req) "get") ;;
      s <- get ;;
      match device_channel_row s d (ch_id c) with
      | Some _ => ret tt
      | None => insert_device_channel d (ch_id c) (platform req)
      end
  | None => ret tt
  end.

(** [checkForUpdate] (lines 624-793). *)
Definition checkForUpdate (req : UpdateRequest) : M UpdateResponse :=
  s <- get ;;
  match resolveAppUuid s (appId req) with
  | None => ret (resp_message "App not found")
  | Some appUuid =>
      let chan := channelToUse req in
      let native := userNativeVersion req in
      let cur := currentVersion req in
      match channelLookup s appUuid chan with
      | None => ret resp_empty
      | Some (c, latest) =>
          if negb (String.eqb (platform req) "")
             && negb (String.eqb (av_platform latest) (platform req))
          then ret resp_empty
          else if negb (compareVersions (version_name latest) cur >? 0)
          then ret (resp_message "No update available")
          else
            let minNative := minNativeRequired latest in
            if (minNative >? 0) && (native <? minNative)
            then ret (resp_native_gate minNative native)
            else checkIn req appUuid c latest ;; ret (resp_update latest)
      end
  end.

(** The body of [assignChannel]. *)
Record Assignment := mkAssignment {
  a_channel : string;
  a_deviceId : string;
  a_appId : string;
  a_platform : string
}.

(** [assignChannel] (lines 913-972). *)
Definition assignChannel (a : Assignment) : M unit :=
  s <- get ;;
  match resolveAppUuid s (a_appId a) with
  | None => throw "App not found"
  | Some appUuid =>
      match one_row (filter (fun c => String.eqb (ch_app_id c) appUuid
                                      && String.eqb (ch_name c) (a_channel a)) (channels s)) with
      | None => throw (String.concat "" ["Channel '"; a_channel a; "' not found for app"])
      | Some c =>
          match device_channel_row s (a_deviceId a) (ch_id c) with
          | Some e => update_device_channel (dc_id e) (a_platform a)
          | None => insert_device_channel (a_deviceId a) (ch_id c) (a_platform a)
          end
      end
  end.

(** [getDeviceChannel] (lines 974-1004): [device_channels] inner-joined with
    [channels], filtered on the device and the app, read with
    [.maybeSingle()]. *)
Definition getDeviceChannel (s : Store) (device appIdString : string) : string :=
  match resolveAppUuid s appIdString with
  | None => "stable"
  | Some appUuid =>
      let joined :=
        flat_map (fun r =>
          match find (fun c => String.eqb (ch_id c) (dc_channel_id r)) (channels s) with
          | Some c => if String.eqb (ch_app_id c) appUuid then [ch_name c] else []
          | None => []
          end)
          (filter (fun r => String.eqb (dc_device_id r) device) (device_channels s)) in
      match one_row joined with
      | Some name => name
      | None => "stable"
      end
  end.

End Service.

(** ** [getAvailableChannels] of updateService.ts (lines 260-298) *)
Module Legacy.
Import Store.

(** Rows of the [updates] table read by the query. *)
Record UpdateRow := mkUpdateRow {
  u_app_id : string;
  u_platform : string;
  u_channel : string;
  u_active : bool
}.

(** The tables visible to this service: [updates] and the channel records. *)
Record LegacyStore := mkLegacyStore {
  updates : list UpdateRow;
  channel_records : list Channel
}.

Record ChannelInfo := mkChannelInfo {
  info_id : string;
  info_name : string;
  info_public : option bool;
  info_allow_self_set : option bool
}.

(** [[...new Set(xs)]]: first occurrences, in insertion order. *)
Definition uniq (xs : list string) : list string :=
  fold_left (fun acc x => if existsb (String.eqb x) acc then acc else acc ++ [x]) xs [].

(** [supabaseService.query("updates", { select, match })]: no [order] and no
    [limit] are given, so the default [.limit(options.limit || 100)] applies;
    rows come in table order. *)
Definition getAvailableChannels (s : LegacyStore) (appId platform : string)
  : list ChannelInfo :=
  let result := firstn 100 (filter (fun u => String.eqb (u_app_id u) appId
                                             && String.eqb (u_platform u) platform
                                             && u_active u) (updates s)) in
  let uniqueChannels := uniq (map u_channel result) in
  map (fun ch => mkChannelInfo ch ch (Some true) (Some true)) uniqueChannels.

End Legacy.

(** ** Concrete stores used by the examples, witnesses and counterexamples *)
Module Fixture.
Import Store Service.

Definition v120 (minNative : option string) (active : bool) : AppVersion :=
  mkAppVersion "v1" "u1" "1.2.0" (Some "https://cdn/b.zip") None (Some "abc")
    None minNative "android" active.

Definition prod (allowSelf : bool) : Channel :=
  mkChannel "c1" "u1" "production" (Some "v1") true allowSelf.

Definition store (v : AppVersion) (failing : list string) : Store :=
  mkStore [mkApp "u1" "com.example.app"] [prod false] [v] [] [] 0 failing.

Definition req (ver : option string) (code : option string) (dev : option string) : UpdateRequest :=
  mkUpdateRequest "com.example.app" None (Some "production") None code None ver "android" dev.

(** A second channel "beta" of the same app, on bundle 2.0.0, where device
    "d1" is registered. *)
Definition v200 : AppVersion :=
  mkAppVersion "v2" "u1" "2.0.0" (Some "https://cdn/c.zip") None (Some "def")
    None None "android" true.

Definition beta : Channel := mkChannel "c2" "u1" "beta" (Some "v2") true false.

Definition store2 : Store :=
  mkStore [mkApp "u1" "com.example.app"] [prod false; beta]
    [v120 None true; v200] [mkDeviceChannel 0 "d1" "c2" "android"] [] 1 [].

Definition assign_prod : Assignment :=
  mkAssignment "production" "d1" "com.example.app" "android".

End Fixture.

(** ** The decision a device check computes *)
Module Decision.
Import JS Version Store Service.

(** The same request without a [deviceId]: the check-in is skipped. *)
Definition without_device (req : UpdateRequest) : UpdateRequest :=
  mkUpdateRequest (appId req) (channel req) (defaultChannel req)
    (default_channel req) (versionCode req) (versionBuild req)
    (req_version_name req) (platform req) None.

(** The decision of [checkForUpdate], read off its branches. *)
Definition decision_of (s : Store) (req : UpdateRequest) : UpdateResponse :=
  match resolveAppUuid s (appId req) with
  | None => resp_message "App not found"
  | Some u =>
      match channelLookup s u (channelToUse req) with
      | None => resp_empty
      | Some (_, latest) =>
          if negb (String.eqb (platform req) "")
             && negb (String.eqb (av_platform latest) (platform req))
          then resp_empty
          else if negb (compareVersions (version_name latest) (currentVersion req) >? 0)
          then resp_message "No update available"
          else if (minNativeRequired latest >? 0)
                  && (userNativeVersion req <? minNativeRequired latest)
          then resp_native_gate (minNativeRequired latest) (userNativeVersion req)
          else resp_update latest
      end
  end.

End Decision.

(** ** [logStats] and [getAvailableChannels] of supabaseService.ts *)
Module ServiceRest.
Import JS Store Monad Service.

(** The fields of the stats body that [logStats] reads. *)
Record StatsRequest := mkStatsRequest {
  st_bundleId : option string;
  st_status : option string;
  st_action : option string;
  st_deviceId : string;
  st_appId : string;
  st_platform : string;
  st_version_name : option string
}.

(** [logStats] (lines 851-911). *)
Definition logStats (stats : StatsRequest) : M unit :=
  s <- get ;;
  match resolveAppUuid s (st_appId stats) with
  | None => ret tt
  | Some appUuid =>
      let actionOrStatus := or_str (st_action stats) (or_str (st_status stats) "unknown") in
      insert_update_log (mkUpdateLog (st_deviceId stats) appUuid None
                           (or_str (st_bundleId stats) (or_str (st_version_name stats) "unknown"))
                           (st_platform stats) actionOrStatus) ;;
      s1 <- get ;;
      match one_row (filter (fun c => String.eqb (ch_app_id c) appUuid
                                      && String.eqb (ch_name c) "stable") (channels s1)) with
      | Some c =>
          match device_channel_row s1 (st_deviceId stats) (ch_id c) with
          | Some _ => ret tt
          | None => insert_device_channel (st_deviceId stats) (ch_id c) (st_platform stats)
          end
      | None => ret tt
      end
  end.

(** [getAvailableChannels] (lines 1006-1041): the app's channel records with
    their own flags. *)
Definition getAvailableChannels (s : Store) (appIdString : string) : list Legacy.ChannelInfo :=
  match resolveAppUuid s appIdString with
  | None => []
  | Some appUuid =>
      map (fun c => Legacy.mkChannelInfo (ch_id c) (ch_name c)
                      (Some (is_public c)) (Some (allow_device_self_set c)))
          (filter (fun c => String.eqb (ch_app_id c) appUuid) (channels s))
  end.

End ServiceRest.

(** ** JavaScript values and plain objects *)
Module JSObj.

(** Values as they arrive in a JSON request body; numbers are integers. *)
#[warnings="-register-all"]
Inductive jsval :=
| JStr (s : string)
| JNum (z : Z)
| JBool (b : bool)
| JNull
| JUndef
| JArr (l : list jsval)
| JObj (o : list (string * jsval)).

(** A plain object: own keys in insertion order. *)
Definition obj := list (string * jsval).

(** [k in o] (the keys used here are not on [Object.prototype]). *)
Definition has (k : string) (o : obj) : bool := existsb (fun kv => String.eqb (fst kv) k) o.

(** [o[k]]; a missing key reads as [undefined]. *)
Definition get (k : string) (o : obj) : jsval :=
  match find (fun kv => String.eqb (fst kv) k) o with
  | Some (_, v) => v
  | None => JUndef
  end.

(** [o[k] = v]: an existing key keeps its place, a new key goes last. *)
Definition set (k : string) (v : jsval) (o : obj) : obj :=
  if has k o then map (fun kv => if String.eqb (fst kv) k then (k, v) else kv) o
  else o ++ [(k, v)].

Definition truthy (v : jsval) : bool :=
  match v with
  | JStr s => negb (String.eqb s "")
  | JNum z => negb (Z.eqb z 0)
  | JBool b => b
  | JNull | JUndef => false
  | JArr _ | JObj _ => true
  end.

(** Property read [v.k]: own keys of objects, [length] of arrays. *)
Definition prop (v : jsval) (k : string) : jsval :=
  match v with
  | JObj o => get k o
  | JArr l => if String.eqb k "length" then JNum (Z.of_nat (length l)) else JUndef
  | _ => JUndef
  end.

(** [x > n] for a number [n], for the operands that occur: a number,
    [undefined] (NaN, so false), [null] (0) or a boolean (0/1). Strings,
    arrays and objects do not occur as [x] here and compare as false. *)
Definition gt_num (x : jsval) (n : Z) : bool :=
  match x with
  | JNum z => n <? z
  | JNull => n <? 0
  | JBool b => n <? (if b then 1 else 0)
  | _ => false
  end.

End JSObj.

(** ** [normalizeRequestFields] of the field-normalizer middleware (part_000) *)
Module FieldNormalizer.
Import JSObj.

(** [FIELD_MAPPINGS], snake_case to camelCase, in declaration order. *)
Definition FIELD_MAPPINGS : list (string * string) :=
  [("app_id", "appId"); ("device_id", "deviceId"); ("version_name", "version");
   ("version_build", "versionBuild"); ("is_emulator", "isEmulator");
   ("is_prod", "isProd"); ("plugin_version", "pluginVersion");
   ("default_channel", "defaultChannel")].

(** First loop: copy a snake_case field to its missing camelCase name. *)
Definition to_camel (o : obj) : obj :=
  fold_left (fun n m => if has (fst m) n && negb (has (snd m) n)
                        then set (snd m) (get (fst m) n) n else n) FIELD_MAPPINGS o.

(** Second loop: copy a camelCase field to its missing snake_case name. *)
Definition to_snake (o : obj) : obj :=
  fold_left (fun n m => if has (snd m) n && negb (has (fst m) n)
                        then set (fst m) (get (snd m) n) n else n) FIELD_MAPPINGS o.

(** The [action] / [status] aliasing. *)
Definition action_status (n : obj) : obj :=
  let n1 := if truthy (get "action" n) && negb (truthy (get "status" n))
            then set "status" (get "action" n) n else n in
  if truthy (get "status" n1) && negb (truthy (get "action" n1))
  then set "action" (get "status" n1) n1 else n1.

(** The new [req.body] for an object body. *)
Definition normalizeBody (body : obj) : obj :=
  action_status (to_snake (to_camel body)).

End FieldNormalizer.

(** ** Device registrations of updateService.ts (the module the controllers
    import): rows keyed by [app_id] and [device_id] *)
Module LegacyDevices.
Import JSObj.

Record LDeviceChannel := mkLDeviceChannel {
  l_id : nat;
  l_app_id : string;
  l_device_id : string;
  l_channel : string;
  l_platform : string
}.

(** An [update_stats] row. *)
Record LStat := mkLStat {
  ls_bundle_id : string;
  ls_status : string;
  ls_action : string;
  ls_device_id : string;
  ls_app_id : string;
  ls_platform : string
}.

Record LStore := mkLStore {
  l_rows : list LDeviceChannel;
  l_next_id : nat;
  l_stats : list LStat;
  l_failing : list string  (* tables whose writes the database rejects *)
}.

Inductive LResult := LOk (s : LStore) | LThrow (e : string).

Definition l_writable (s : LStore) (table : string) : bool :=
  negb (existsb (String.eqb table) (l_failing s)).

(** [query("device_channels", { match: { app_id, device_id } })]: at most
    [limit || 100] matching rows. *)
Definition l_matching (s : LStore) (app device : string) : list LDeviceChannel :=
  firstn 100 (filter (fun r => String.eqb (l_app_id r) app && String.eqb (l_device_id r) device)
                     (l_rows s)).

(** [insert("device_channels", [row])]; the row gets a fresh id. *)
Definition l_insert_row (app device channel platform : string) (s : LStore) : LResult :=
  if l_writable s "device_channels"
  then LOk (mkLStore (l_rows s ++ [mkLDeviceChannel (l_next_id s) app device channel platform])
                     (S (l_next_id s)) (l_stats s) (l_failing s))
  else LThrow "Insert failed".

(** [assignChannel] (lines 193-234). *)
Definition assignChannel (channel deviceId appId platform : string) (s : LStore) : LResult :=
  match l_matching s appId deviceId with
  | e :: _ =>
      if l_writable s "device_channels"
      then LOk (mkLStore (map (fun r => if Nat.eqb (l_id r) (l_id e)
                                        then mkLDeviceChannel (l_id r) (l_app_id r) (l_device_id r) channel platform
                                        else r) (l_rows s))
                         (l_next_id s) (l_stats s) (l_failing s))
      else LThrow "Update failed"
  | [] => l_insert_row appId deviceId channel platform s
  end.

(** The fields of the stats body that the legacy [logStats] reads. *)
Record LegacyStats := mkLegacyStats {
  lst_bundleId : option string;
  lst_status : option string;
  lst_action : option string;
  lst_deviceId : string;
  lst_appId : string;
  lst_platform : string;
  lst_version : option string
}.

(** [logStats] (lines 140-191). *)
Definition logStats (stats : LegacyStats) (s : LStore) : LResult :=
  let actionOrStatus := JS.or_str (lst_action stats) (JS.or_str (lst_status stats) "unknown") in
  if negb (l_writable s "update_stats") then LThrow "Insert failed" else
  let s1 := mkLStore (l_rows s) (l_next_id s)
              (l_stats s ++ [mkLStat (JS.or_str (lst_bundleId stats)
                                        (JS.or_str (lst_version stats) "unknown"))
                                     actionOrStatus actionOrStatus (lst_deviceId stats)
                                     (lst_appId stats) (lst_platform stats)])
              (l_failing s) in
  match l_matching s1 (lst_appId stats) (lst_deviceId stats) with
  | [] => l_insert_row (lst_appId stats) (lst_deviceId stats) "stable" (lst_platform stats) s1
  | _ :: _ => LOk s1
  end.

Definition row_object (r : LDeviceChannel) : jsval :=
  JObj [("channel", JStr (l_channel r))].

(** [getDeviceChannel] (lines 236-258): [result] is the object
    [{ data, count }] returned by [supabaseService.query]. *)
Definition getDeviceChannel (s : LStore) (deviceId appId platform : string) : string :=
  let rows := firstn 100 (filter (fun r => String.eqb (l_app_id r) appId
                                           && String.eqb (l_device_id r) deviceId
                                           && String.eqb (l_platform r) platform) (l_rows s)) in
  let result := JObj [("data", JArr (map row_object rows)); ("count", JNull)] in
  if truthy result && gt_num (prop result "length") 0 then
    match prop (prop result "0") "channel" with JStr c => c | _ => "" end
  else "stable".

End LegacyDevices.

(** ** Predicates used to state properties of the code above *)
Module Analysis.
Import Store LegacyDevices JSObj.

(** A [device_channels] row of [device d] on [channel_id c]. *)
Definition dc_key (d c : string) (r : DeviceChannel) : bool :=
  String.eqb (dc_device_id r) d && String.eqb (dc_channel_id r) c.

(** At most one [device_channels] row per (device, channel). *)
Definition dc_unique (s : Store) : Prop :=
  forall d c, (length (filter (dc_key d c) (device_channels s)) <= 1)%nat.

(** The catalogue tables and the write policy of a store. *)
Definition catalogue (s : Store) :=
  (apps s, channels s, app_versions s, failing_writes s).

(** A legacy [device_channels] row of app [a] and device [d]. *)
Definition l_key (a d : string) (r : LDeviceChannel) : bool :=
  String.eqb (l_app_id r) a && String.eqb (l_device_id r) d.

(** At most one legacy row per (app, device). *)
Definition l_unique (s : LStore) : Prop :=
  forall a d, (length (filter (l_key a d) (l_rows s)) <= 1)%nat.

(** One iteration of either copy loop of [normalizeRequestFields]: copy
    [fst m] to a missing [snd m]. *)
Definition copy_step (n : obj) (m : string * string) : obj :=
  if has (fst m) n && negb (has (snd m) n) then set (snd m) (get (fst m) n) n else n.

Definition swap (m : string * string) : string * string := (snd m, fst m).

(** The keys the mappings mention. *)
Definition mapped_keys : list string :=
  map fst FieldNormalizer.FIELD_MAPPINGS ++ map snd FieldNormalizer.FIELD_MAPPINGS.

End Analysis.

(** ** Facts about the comparator *)
Module VersionFacts.
Import JS Version.

Ltac zcases :=
  repeat match goal with
  | |- context [Z.gtb ?a ?b] => rewrite (Z.gtb_ltb a b)
  | H : context [Z.gtb ?a ?b] |- _ => rewrite (Z.gtb_ltb a b) in H
  end;
  repeat match goal with
  | |- context [Z.ltb ?a ?b] => destruct (Z.ltb_spec a b)
  | H : context [Z.ltb ?a ?b] |- _ => destruct (Z.ltb_spec a b)
  end.

Lemma cmp_loop_zeros k : cmp_loop (repeat 0 k) (repeat 0 k) = 0.
Proof. induction k as [|k IH]; simpl; [reflexivity|exact IH]. Qed.

Lemma cmp_loop_app_zeros x y k :
  length x = length y ->
  cmp_loop (x ++ repeat 0 k) (y ++ repeat 0 k) = cmp_loop x y.
Proof.
  revert y; induction x as [|a x IH]; intros [|b y] Hl; simpl in *;
    try discriminate.
  - apply cmp_loop_zeros.
  - rewrite IH by lia. reflexivity.
Qed.

Lemma pad_length l n : (length l <= n)%nat -> length (pad l n) = n.
Proof. intros H. unfold pad. rewrite length_app, repeat_length. lia. Qed.

Lemma pad_more l n m :
  (length l <= n)%nat -> (n <= m)%nat -> pad l m = pad l n ++ repeat 0 (m - n).
Proof.
  intros H1 H2. unfold pad. rewrite <- app_assoc, <- repeat_app.
  f_equal. f_equal. lia.
Qed.

(** The loop bound can be any common length at least the longer one. *)
Lemma compareVersions_pad a b n :
  (length (parts a) <= n)%nat -> (length (parts b) <= n)%nat ->
  compareVersions a b = cmp_loop (pad (parts a) n) (pad (parts b) n).
Proof.
  intros Ha Hb. unfold compareVersions.
  set (m := Nat.max (length (parts a)) (length (parts b))).
  assert (Hm : (m <= n)%nat) by (unfold m; lia).
  rewrite (pad_more (parts a) m n), (pad_more (parts b) m n) by (unfold m; lia).
  rewrite cmp_loop_app_zeros; [reflexivity|].
  rewrite !pad_length by (unfold m; lia). reflexivity.
Qed.

Lemma cmp_loop_lex x y :
  length x = length y -> cmp_loop x y = cmp_to_Z (lex x y).
Proof.
  revert y; induction x as [|a x IH]; intros [|b y] Hl; simpl in *;
    try discriminate; [reflexivity|].
  zcases; destruct (Z.compare_spec a b); try lia; auto.
Qed.

Lemma cmp_loop_refl x : cmp_loop x x = 0.
Proof. induction x as [|a x IH]; simpl; [reflexivity|]. zcases; lia. Qed.

Lemma cmp_loop_flip x y : cmp_loop y x = - cmp_loop x y.
Proof.
  revert y; induction x as [|a x IH]; intros [|b y]; simpl; try reflexivity.
  zcases; try lia. apply IH.
Qed.

Lemma cmp_loop_range x y : cmp_loop x y = -1 \/ cmp_loop x y = 0 \/ cmp_loop x y = 1.
Proof.
  revert y; induction x as [|a x IH]; intros [|b y]; simpl; auto.
  zcases; auto.
Qed.

Lemma cmp_loop_trans_le x y z :
  length x = length y -> length y = length z ->
  cmp_loop x y <= 0 -> cmp_loop y z <= 0 -> cmp_loop x z <= 0.
Proof.
  revert y z; induction x as [|a x IH]; intros [|b y] [|c z] H1 H2;
    simpl in *; try discriminate; try lia.
  intros Hxy Hyz. zcases; try lia. apply (IH y z); lia.
Qed.

Lemma compareVersions_range a b :
  compareVersions a b = -1 \/ compareVersions a b = 0 \/ compareVersions a b = 1.
Proof. apply cmp_loop_range. Qed.

Lemma compareVersions_flip a b : compareVersions b a = - compareVersions a b.
Proof.
  unfold compareVersions. rewrite Nat.max_comm. apply cmp_loop_flip.
Qed.

Lemma compareVersions_trans_le a b c :
  compareVersions a b <= 0 -> compareVersions b c <= 0 -> compareVersions a c <= 0.
Proof.
  set (n := Nat.max (length (parts a)) (Nat.max (length (parts b)) (length (parts c)))).
  rewrite (compareVersions_pad a b n), (compareVersions_pad b c n),
          (compareVersions_pad a c n) by (unfold n; lia).
  apply cmp_loop_trans_le; rewrite !pad_length by (unfold n; lia); reflexivity.
Qed.

End VersionFacts.

(** ** Facts about [uniq] *)
Module LegacyFacts.
Import Legacy.

Lemma uniq_aux_In xs acc x :
  In x (fold_left (fun acc x => if existsb (String.eqb x) acc then acc else acc ++ [x]) xs acc)
  <-> In x acc \/ In x xs.
Proof.
  revert acc; induction xs as [|y xs IH]; intros acc; cbn; [tauto|].
  rewrite IH. destruct (existsb (String.eqb y) acc) eqn:E.
  - apply existsb_exists in E. destruct E as [z [Hz Hyz]].
    apply String.eqb_eq in Hyz. subst z. split; [tauto|].
    intros [H|[H|H]]; auto. subst; auto.
  - rewrite in_app_iff. cbn. tauto.
Qed.

Lemma uniq_aux_NoDup xs acc :
  NoDup acc ->
  NoDup (fold_left (fun acc x => if existsb (String.eqb x) acc then acc else acc ++ [x]) xs acc).
Proof.
  revert acc; induction xs as [|y xs IH]; intros acc Hacc; cbn; [exact Hacc|].
  apply IH. destruct (existsb (String.eqb y) acc) eqn:E; [exact Hacc|].
  apply NoDup_app; [exact Hacc|constructor; [intros []|constructor]|].
  intros z Hz [Hyz|[]]. subst z.
  assert (existsb (String.eqb y) acc = true)
    by (apply existsb_exists; exists y; split; [exact Hz|apply String.eqb_refl]).
  congruence.
Qed.

Lemma uniq_In xs x : In x (uniq xs) <-> In x xs.
Proof. unfold uniq. rewrite uniq_aux_In. cbn. tauto. Qed.

Lemma uniq_NoDup xs : NoDup (uniq xs).
Proof. apply uniq_aux_NoDup. constructor. Qed.

End LegacyFacts.

(** ** Examples *)
Example cv_ex1 : Version.compareVersions "1.2.0" "1.1.9" = 1. Proof. reflexivity. Qed.
Example cv_ex2 : Version.compareVersions "1.2" "1.2.0" = 0. Proof. reflexivity. Qed.
Example cv_ex3 : Version.compareVersions "1.-1" "1.0" = -1. Proof. reflexivity. Qed.
Example cv_ex4 : Version.spec_compare "1.-1" "1.0" = 0. Proof. reflexivity. Qed.
Example cv_ex5 : Version.compareVersions "0x10" "15" = 1. Proof. reflexivity. Qed.

Example scenario_update :
  fst (Service.checkForUpdate (Fixture.req (Some "1.1.0") None None)
         (Fixture.store (Fixture.v120 None true) []))
  = Monad.Ok (Service.resp_update (Fixture.v120 None true)).
Proof. reflexivity. Qed.

Example scenario_gate :
  fst (Service.checkForUpdate (Fixture.req (Some "1.1.0") (Some "40") None)
         (Fixture.store (Fixture.v120 (Some "50") true) []))
  = Monad.Ok (Service.resp_native_gate 50 40).
Proof. reflexivity. Qed.

Example scenario_gate_text :
  Service.r_error (Service.resp_native_gate 50 40) = Some "Native version 50 required. You have 40.".
Proof. reflexivity. Qed.

Example scenario_builtin :
  fst (Service.checkForUpdate (Fixture.req (Some "builtin") None (Some "d1"))
         (Fixture.store (Fixture.v120 None true) []))
  = Monad.Ok (Service.resp_update (Fixture.v120 None true)).
Proof. reflexivity. Qed.

(** ** Facts about [checkForUpdate] *)
Module ServiceFacts.
Import JS Version Store Monad Service Decision.

Lemma checkForUpdate_no_device req s :
  checkForUpdate (without_device req) s = (Ok (decision_of s req), s).
Proof.
  unfold checkForUpdate, decision_of, bind, get, ret; cbn.
  destruct (resolveAppUuid s (appId req)) as [u|]; [|reflexivity].
  unfold channelToUse, userNativeVersion, currentVersion; cbn.
  destruct (channelLookup _ _ _) as [[c latest]|]; [|reflexivity].
  destruct (_ && _); [reflexivity|].
  destruct (negb _); [reflexivity|].
  destruct (_ && _); reflexivity.
Qed.

(** Either the call returns the decision without touching the store, or the
    decision is an update and the call runs the check-in before returning it. *)
Lemma checkForUpdate_cases req s :
  checkForUpdate req s = (Ok (decision_of s req), s) \/
  exists u c v,
    resolveAppUuid s (appId req) = Some u /\
    channelLookup s u (channelToUse req) = Some (c, v) /\
    decision_of s req = resp_update v /\
    checkForUpdate req s = bind (checkIn req u c v) (fun _ => ret (resp_update v)) s.
Proof.
  unfold checkForUpdate, decision_of, bind, get, ret; cbn.
  destruct (resolveAppUuid s (appId req)) as [u|]; [|left; reflexivity].
  destruct (channelLookup _ _ _) as [[c latest]|] eqn:Hl; [|left; reflexivity].
  destruct (_ && _); [left; reflexivity|].
  destruct (negb _); [left; reflexivity|].
  destruct (_ && _); [left; reflexivity|].
  right. exists u, c, latest. repeat split. all: cbn; try reflexivity; exact Hl.
Qed.

Lemma ok_is_decision req s r s' :
  checkForUpdate req s = (Ok r, s') -> r = decision_of s req.
Proof.
  destruct (checkForUpdate_cases req s) as [H|(u & c & v & Hu & Hl & Hd & H)];
    rewrite H; intro E.
  - inversion E. reflexivity.
  - unfold bind in E. destruct (checkIn req u c v s) as [[[]|e] s0];
      cbn in E; inversion E; subst; auto.
Qed.

Lemma resp_update_not_message v m : resp_update v <> resp_message m.
Proof. discriminate. Qed.

Lemma resp_update_not_empty v : resp_update v <> resp_empty.
Proof. discriminate. Qed.

Lemma resp_update_not_gate v a b : resp_update v <> resp_native_gate a b.
Proof. discriminate. Qed.

(** The decision once the app and the channel's bundle are known and the
    platform check passed. *)
Lemma decision_of_bundle s req u c v :
  resolveAppUuid s (appId req) = Some u ->
  channelLookup s u (channelToUse req) = Some (c, v) ->
  (platform req = "" \/ av_platform v = platform req) ->
  decision_of s req =
    if negb (compareVersions (version_name v) (currentVersion req) >? 0)
    then resp_message "No update available"
    else if (minNativeRequired v >? 0) && (userNativeVersion req <? minNativeRequired v)
    then resp_native_gate (minNativeRequired v) (userNativeVersion req)
    else resp_update v.
Proof.
  intros Hu Hl Hp. unfold decision_of. rewrite Hu, Hl.
  destruct Hp as [Hp|Hp]; rewrite Hp;
    [rewrite String.eqb_refl; reflexivity|].
  rewrite String.eqb_refl, andb_false_r. reflexivity.
Qed.

Lemma one_row_In {A} (l : list A) x : one_row l = Some x -> In x l.
Proof. destruct l as [|a [|b l]]; cbn; intros H; inversion H; auto. Qed.

End ServiceFacts.

(** ** Claims *)
Import JS Version Store Monad Service Decision ServiceFacts.

(** C1 (amended): when the app is known, the channel's pointer yields bundle
    [v] and the platform check passes, a returning [checkForUpdate] answers
    the update for [v] (its version, url, checksum, session key) exactly when
    [compareVersions] judges [v] newer than the normalised reported version
    and ([v]'s parsed minimum native version is [<= 0] or the parsed native
    build reaches it); otherwise it answers "No update available" or the
    native gate. *)
Theorem checkForUpdate_update_iff req s u c v r s' :
  resolveAppUuid s (appId req) = Some u ->
  channelLookup s u (channelToUse req) = Some (c, v) ->
  (platform req = "" \/ av_platform v = platform req) ->
  checkForUpdate req s = (Ok r, s') ->
  (r = resp_update v <->
     compareVersions (version_name v) (currentVersion req) > 0 /\
     (minNativeRequired v <= 0 \/ userNativeVersion req >= minNativeRequired v)) /\
  (r = resp_update v \/ r = resp_message "No update available" \/
   r = resp_native_gate (minNativeRequired v) (userNativeVersion req)).
Proof.
  intros Hu Hl Hp Hc.
  apply ok_is_decision in Hc. rewrite (decision_of_bundle s req u c v Hu Hl Hp) in Hc.
  subst r. rewrite Z.gtb_ltb.
  destruct (Z.ltb_spec 0 (compareVersions (version_name v) (currentVersion req))) as [Hv|Hv];
    cbn [negb].
  - rewrite Z.gtb_ltb.
    destruct (Z.ltb_spec 0 (minNativeRequired v)) as [Hm|Hm]; cbn [andb];
      [destruct (Z.ltb_spec (userNativeVersion req) (minNativeRequired v)) as [Hn|Hn]|].
    + split; [split; [intros H; exfalso; exact (resp_update_not_gate _ _ _ (eq_sym H))|lia]|].
      right; right; reflexivity.
    + split; [split; [intros _; split; lia|reflexivity]|]. left; reflexivity.
    + split; [split; [intros _; split; lia|reflexivity]|]. left; reflexivity.
  - split; [split; [intros H; exfalso; exact (resp_update_not_message _ _ (eq_sym H))|lia]|].
    right; left; reflexivity.
Qed.

Lemma checkForUpdate_update_iff_witness :
  exists r s',
    checkForUpdate (Fixture.req (Some "1.1.0") None None) (Fixture.store (Fixture.v120 None true) [])
      = (Ok r, s') /\
    ((r = resp_update (Fixture.v120 None true) <->
      compareVersions "1.2.0" (currentVersion (Fixture.req (Some "1.1.0") None None)) > 0 /\
      (minNativeRequired (Fixture.v120 None true) <= 0 \/
       userNativeVersion (Fixture.req (Some "1.1.0") None None)
         >= minNativeRequired (Fixture.v120 None true))) /\
     (r = resp_update (Fixture.v120 None true) \/ r = resp_message "No update available" \/
      r = resp_native_gate (minNativeRequired (Fixture.v120 None true))
            (userNativeVersion (Fixture.req (Some "1.1.0") None None)))).
Proof.
  eexists; eexists; split; [reflexivity|].
  eapply (checkForUpdate_update_iff (Fixture.req (Some "1.1.0") None None)
           (Fixture.store (Fixture.v120 None true) []) "u1" (Fixture.prod false)
           (Fixture.v120 None true)); [reflexivity|reflexivity|right; reflexivity|reflexivity].
Defined.

(** C1 (counterexample): a bundle whose minimum native version parses as -5,
    checked by a device whose native build parses as -10, is offered
    although the minimum is not 0 and the build is below it. *)
Lemma checkForUpdate_negative_min_native :
  let v := Fixture.v120 (Some "-5") true in
  let req := Fixture.req (Some "1.1.0") (Some "-10") None in
  checkForUpdate req (Fixture.store v []) = (Ok (resp_update v), Fixture.store v []) /\
  compareVersions (version_name v) (currentVersion req) > 0 /\
  ~ (minNativeRequired v = 0 \/ userNativeVersion req >= minNativeRequired v).
Proof.
  cbv zeta. split; [reflexivity|]. split; [vm_compute; reflexivity|].
  vm_compute. intros [H|H]; [discriminate|apply H; reflexivity].
Qed.

(** C4 (amended): the check-in never alters a returned decision: a returning
    call answers [decision_of], the same answer as the request without
    [deviceId], which performs no write. But the check-in is not isolated
    from failures: when the decision is an update for a device with a
    non-empty id, the call returns it exactly when every check-in write it
    attempts succeeds (the [update_logs] insert, and the [device_channels]
    insert when the device has no row on the channel), and otherwise throws
    ["Insert failed"] instead of returning the decision. *)
Theorem checkForUpdate_checkin_isolation :
  (forall req s r s', checkForUpdate req s = (Ok r, s') -> r = decision_of s req) /\
  (forall req s, checkForUpdate (without_device req) s = (Ok (decision_of s req), s)) /\
  (forall req s u c v d,
     resolveAppUuid s (appId req) = Some u ->
     channelLookup s u (channelToUse req) = Some (c, v) ->
     decision_of s req = resp_update v ->
     deviceId req = Some d -> d <> "" ->
     fst (checkForUpdate req s) =
       if writable s "update_logs"
          && (match device_channel_row s d (ch_id c) with Some _ => true | None => false end
              || writable s "device_channels")
       then Ok (resp_update v) else Throw "Insert failed").
Proof.
  split; [exact ok_is_decision|]. split; [exact checkForUpdate_no_device|].
  intros req s u c v d Hu Hl Hdec Hd Hne.
  unfold decision_of in Hdec. rewrite Hu, Hl in Hdec.
  unfold checkForUpdate, bind, get, ret. cbn beta iota. rewrite Hu, Hl.
  destruct (_ && _); [discriminate|].
  destruct (negb _); [discriminate|].
  destruct (_ && _); [discriminate|].
  clear Hdec.
  unfold checkIn. rewrite Hd.
  apply String.eqb_neq in Hne. rewrite Hne.
  unfold bind, insert_update_log, get.
  destruct (writable s "update_logs"); [|reflexivity]. cbv beta iota.
  change (device_channel_row (with_update_logs s (update_logs s ++ _)) d (ch_id c))
    with (device_channel_row s d (ch_id c)).
  destruct (device_channel_row s d (ch_id c)); [reflexivity|].
  unfold insert_device_channel.
  change (writable (with_update_logs s (update_logs s ++ _)) "device_channels")
    with (writable s "device_channels").
  destruct (writable s "device_channels"); reflexivity.
Qed.

Lemma checkForUpdate_checkin_isolation_witness :
  fst (checkForUpdate (Fixture.req (Some "1.1.0") None (Some "d1"))
         (Fixture.store (Fixture.v120 None true) ["update_logs"]))
  = Throw "Insert failed" /\
  fst (checkForUpdate (Fixture.req (Some "1.1.0") None (Some "d1"))
         (Fixture.store (Fixture.v120 None true) ["device_channels"]))
  = Throw "Insert failed" /\
  fst (checkForUpdate (Fixture.req (Some "1.1.0") None (Some "d1"))
         (Fixture.store (Fixture.v120 None true) []))
  = Ok (resp_update (Fixture.v120 None true)).
Proof.
  split; [|split].
  - rewrite (proj2 (proj2 checkForUpdate_checkin_isolation)
               (Fixture.req (Some "1.1.0") None (Some "d1"))
               (Fixture.store (Fixture.v120 None true) ["update_logs"]) "u1"
               (Fixture.prod false) (Fixture.v120 None true) "d1");
      [reflexivity|reflexivity|reflexivity|reflexivity|reflexivity|discriminate].
  - rewrite (proj2 (proj2 checkForUpdate_checkin_isolation)
               (Fixture.req (Some "1.1.0") None (Some "d1"))
               (Fixture.store (Fixture.v120 None true) ["device_channels"]) "u1"
               (Fixture.prod false) (Fixture.v120 None true) "d1");
      [reflexivity|reflexivity|reflexivity|reflexivity|reflexivity|discriminate].
  - rewrite (proj2 (proj2 checkForUpdate_checkin_isolation)
               (Fixture.req (Some "1.1.0") None (Some "d1"))
               (Fixture.store (Fixture.v120 None true) []) "u1"
               (Fixture.prod false) (Fixture.v120 None true) "d1");
      [reflexivity|reflexivity|reflexivity|reflexivity|reflexivity|discriminate].
Defined.

(** C4 (counterexample): with a device id and a rejected [update_logs]
    write, the call throws although the decision is an update. *)
Lemma checkForUpdate_checkin_failure_masks_decision :
  fst (checkForUpdate (Fixture.req (Some "1.1.0") None (Some "d1"))
         (Fixture.store (Fixture.v120 None true) ["update_logs"]))
  = Throw "Insert failed" /\
  fst (checkForUpdate (without_device (Fixture.req (Some "1.1.0") None (Some "d1")))
         (Fixture.store (Fixture.v120 None true) ["update_logs"]))
  = Ok (resp_update (Fixture.v120 None true)).
Proof. split; reflexivity. Qed.

(** C5 (amended): the bundle is the one the channel's [current_version_id]
    points to. An unknown or ambiguous channel (not exactly one row), a
    missing pointer, a dangling pointer, or a requested platform different
    from the bundle's makes the call return the empty no-update answer,
    without error and without writing. Otherwise the bundle goes on to the
    version comparison whatever its [active] flag: a returning call answers
    "No update available", the native gate, or the update for that bundle,
    never the empty answer. *)
Theorem checkForUpdate_bundle_lookup req s u :
  resolveAppUuid s (appId req) = Some u ->
  let chans := filter (fun c => String.eqb (ch_app_id c) u
                                && String.eqb (ch_name c) (channelToUse req)) (channels s) in
  ((one_row chans = None \/
    (exists c, one_row chans = Some c /\ current_version_id c = None) \/
    (exists c vid, one_row chans = Some c /\ current_version_id c = Some vid /\
       ~ exists v, In v (app_versions s) /\ av_id v = vid)) ->
   checkForUpdate req s = (Ok resp_empty, s)) /\
  (forall c v, channelLookup s u (channelToUse req) = Some (c, v) ->
     platform req <> "" -> av_platform v <> platform req ->
     checkForUpdate req s = (Ok resp_empty, s)) /\
  (forall c v, channelLookup s u (channelToUse req) = Some (c, v) ->
     (platform req = "" \/ av_platform v = platform req) ->
     forall r s', checkForUpdate req s = (Ok r, s') ->
     r <> resp_empty /\
     r = (if negb (compareVersions (version_name v) (currentVersion req) >? 0)
          then resp_message "No update available"
          else if (minNativeRequired v >? 0) && (userNativeVersion req <? minNativeRequired v)
          then resp_native_gate (minNativeRequired v) (userNativeVersion req)
          else resp_update v)).
Proof.
  intros Hu chans.
  assert (Hempty : channelLookup s u (channelToUse req) = None ->
                   checkForUpdate req s = (Ok resp_empty, s)).
  { intros Hl. unfold checkForUpdate, bind, get, ret. cbn beta iota.
    rewrite Hu, Hl. reflexivity. }
  split; [|split].
  - intros Hc. apply Hempty. unfold channelLookup. fold chans.
    destruct Hc as [Hc|[(c & Hc & Hp)|(c & vid & Hc & Hp & Hv)]]; rewrite Hc;
      [reflexivity|rewrite Hp; reflexivity|rewrite Hp].
    destruct (find (fun v => String.eqb (av_id v) vid) (app_versions s)) as [v|] eqn:Hf;
      [|reflexivity].
    exfalso. apply Hv. exists v. apply find_some in Hf as [Hin Hk].
    apply String.eqb_eq in Hk. auto.
  - intros c v Hl Hp Hv. unfold checkForUpdate, bind, get, ret. cbn beta iota.
    rewrite Hu, Hl. apply String.eqb_neq in Hp, Hv. rewrite Hp, Hv. reflexivity.
  - intros c v Hl Hp r s' Hc. apply ok_is_decision in Hc. subst r.
    rewrite (decision_of_bundle s req u c v Hu Hl Hp). split; [|reflexivity].
    destruct (negb _); [discriminate|]. destruct (_ && _); discriminate.
Qed.

Lemma checkForUpdate_bundle_lookup_witness :
  checkForUpdate (Fixture.req (Some "1.1.0") None None)
    (mkStore [mkApp "u1" "com.example.app"] [Fixture.prod false] [] [] [] 0 [])
  = (Ok resp_empty,
     mkStore [mkApp "u1" "com.example.app"] [Fixture.prod false] [] [] [] 0 []) /\
  checkForUpdate (mkUpdateRequest "com.example.app" None (Some "production") None
                    None None (Some "1.1.0") "ios" (Some "d1"))
    (Fixture.store (Fixture.v120 None true) [])
  = (Ok resp_empty, Fixture.store (Fixture.v120 None true) []) /\
  (forall r s', checkForUpdate (Fixture.req (Some "1.1.0") None None)
                  (Fixture.store (Fixture.v120 None false) []) = (Ok r, s') ->
     r <> resp_empty /\ r = resp_update (Fixture.v120 None false)).
Proof.
  split; [|split].
  - apply (checkForUpdate_bundle_lookup (Fixture.req (Some "1.1.0") None None)
             (mkStore [mkApp "u1" "com.example.app"] [Fixture.prod false] [] [] [] 0 [])
             "u1" eq_refl).
    right. right. exists (Fixture.prod false), "v1". split; [reflexivity|].
    split; [reflexivity|]. intros (v & [] & _).
  - apply (proj1 (proj2 (checkForUpdate_bundle_lookup
             (mkUpdateRequest "com.example.app" None (Some "production") None
                None None (Some "1.1.0") "ios" (Some "d1"))
             (Fixture.store (Fixture.v120 None true) []) "u1" eq_refl))
             (Fixture.prod false) (Fixture.v120 None true));
      [reflexivity|discriminate|discriminate].
  - intros r s' Hc.
    apply (proj2 (proj2 (checkForUpdate_bundle_lookup (Fixture.req (Some "1.1.0") None None)
             (Fixture.store (Fixture.v120 None false) []) "u1" eq_refl))
             (Fixture.prod false) (Fixture.v120 None false) eq_refl
             (or_intror eq_refl) r s' Hc).
Defined.

(** C5 (counterexample): the channel points to an inactive bundle, and the
    bundle is still offered. *)
Lemma checkForUpdate_offers_inactive_bundle :
  av_active (Fixture.v120 None false) = false /\
  fst (checkForUpdate (Fixture.req (Some "1.1.0") None None)
         (Fixture.store (Fixture.v120 None false) []))
  = Ok (resp_update (Fixture.v120 None false)).
Proof. split; reflexivity. Qed.

(** C6: the reported version "builtin" is normalised to "0.0.0"; a bundle
    [compareVersions] judges newer than "0.0.0" therefore passes the version
    check (the answer is never "No update available") and is offered as the
    update whenever the native gate does not withhold it. *)
Theorem checkForUpdate_builtin_sentinel req :
  req_version_name req = Some "builtin" ->
  currentVersion req = "0.0.0" /\
  (forall s u c v r s',
     resolveAppUuid s (appId req) = Some u ->
     channelLookup s u (channelToUse req) = Some (c, v) ->
     (platform req = "" \/ av_platform v = platform req) ->
     compareVersions (version_name v) "0.0.0" > 0 ->
     checkForUpdate req s = (Ok r, s') ->
     r <> resp_message "No update available" /\
     (minNativeRequired v <= 0 \/ userNativeVersion req >= minNativeRequired v ->
      r = resp_update v)).
Proof.
  intros Hb.
  assert (Hn : currentVersion req = "0.0.0")
    by (unfold currentVersion; rewrite Hb; reflexivity).
  split; [exact Hn|].
  intros s u c v r s' Hu Hl Hp Hv Hc.
  apply ok_is_decision in Hc. rewrite (decision_of_bundle s req u c v Hu Hl Hp), Hn in Hc.
  subst r. rewrite Z.gtb_ltb.
  destruct (Z.ltb_spec 0 (compareVersions (version_name v) "0.0.0")) as [H0|H0]; [|lia].
  cbn [negb]. rewrite Z.gtb_ltb.
  destruct (Z.ltb_spec 0 (minNativeRequired v)) as [Hm|Hm]; cbn [andb];
    [destruct (Z.ltb_spec (userNativeVersion req) (minNativeRequired v)) as [Hk|Hk]|].
  - split; [discriminate|]. intros; lia.
  - split; [discriminate|reflexivity].
  - split; [discriminate|reflexivity].
Qed.

Lemma checkForUpdate_builtin_sentinel_witness :
  currentVersion (Fixture.req (Some "builtin") None (Some "d1")) = "0.0.0" /\
  (forall s u c v r s',
     resolveAppUuid s "com.example.app" = Some u ->
     channelLookup s u "production" = Some (c, v) ->
     ("android" = "" \/ av_platform v = "android") ->
     compareVersions (version_name v) "0.0.0" > 0 ->
     checkForUpdate (Fixture.req (Some "builtin") None (Some "d1")) s = (Ok r, s') ->
     r <> resp_message "No update available" /\
     (minNativeRequired v <= 0 \/
      userNativeVersion (Fixture.req (Some "builtin") None (Some "d1")) >= minNativeRequired v ->
      r = resp_update v)).
Proof.
  apply (checkForUpdate_builtin_sentinel (Fixture.req (Some "builtin") None (Some "d1"))).
  reflexivity.
Defined.

(** C7: a strictly newer bundle whose parsed minimum native version is
    positive and above the device's parsed native build yields, without any
    write, the answer with [message = "native_update_required"] and the text
    "Native version <min> required. You have <build>."; it carries no
    version, url, checksum or session key. *)
Theorem checkForUpdate_native_gate req s u c v :
  resolveAppUuid s (appId req) = Some u ->
  channelLookup s u (channelToUse req) = Some (c, v) ->
  (platform req = "" \/ av_platform v = platform req) ->
  compareVersions (version_name v) (currentVersion req) > 0 ->
  minNativeRequired v > 0 ->
  userNativeVersion req < minNativeRequired v ->
  checkForUpdate req s
    = (Ok (resp_native_gate (minNativeRequired v) (userNativeVersion req)), s) /\
  r_message (resp_native_gate (minNativeRequired v) (userNativeVersion req))
    = Some "native_update_required" /\
  r_error (resp_native_gate (minNativeRequired v) (userNativeVersion req))
    = Some (String.concat "" ["Native version "; show_Z (minNativeRequired v);
                              " required. You have "; show_Z (userNativeVersion req); "."]) /\
  r_version_name (resp_native_gate (minNativeRequired v) (userNativeVersion req)) = None /\
  r_url (resp_native_gate (minNativeRequired v) (userNativeVersion req)) = None /\
  r_checksum (resp_native_gate (minNativeRequired v) (userNativeVersion req)) = None /\
  r_sessionKey (resp_native_gate (minNativeRequired v) (userNativeVersion req)) = None.
Proof.
  intros Hu Hl Hp Hv Hm Hn.
  repeat split; try reflexivity.
  unfold checkForUpdate, bind, get, ret; cbn.
  rewrite Hu, Hl.
  assert (Hp' : (negb (String.eqb (platform req) "")
                 && negb (String.eqb (av_platform v) (platform req)))%bool = false)
    by (destruct Hp as [Hp|Hp]; rewrite Hp; rewrite String.eqb_refl;
        [reflexivity|apply andb_false_r]).
  unfold channelToUse, currentVersion, userNativeVersion in *.
  rewrite Hp'.
  replace (compareVersions _ _ >? 0) with true by (symmetry; apply Z.gtb_lt; lia).
  replace (minNativeRequired v >? 0) with true by (symmetry; apply Z.gtb_lt; lia).
  replace (Z.ltb _ (minNativeRequired v)) with true by (symmetry; apply Z.ltb_lt; lia).
  reflexivity.
Qed.

Lemma checkForUpdate_native_gate_witness :
  checkForUpdate (Fixture.req (Some "1.1.0") (Some "40") None)
    (Fixture.store (Fixture.v120 (Some "50") true) [])
  = (Ok (resp_native_gate 50 40), Fixture.store (Fixture.v120 (Some "50") true) []).
Proof.
  apply (checkForUpdate_native_gate (Fixture.req (Some "1.1.0") (Some "40") None)
           (Fixture.store (Fixture.v120 (Some "50") true) []) "u1" (Fixture.prod false)
           (Fixture.v120 (Some "50") true));
    try reflexivity; try (right; reflexivity); vm_compute; reflexivity.
Defined.

(** C2 (amended): the channel is taken from the request alone (explicit
    [channel], then [defaultChannel], then [default_channel], then
    "staging"); the decision does not read [device_channels], so a stored
    registration of the device plays no part. *)
Theorem checkForUpdate_channel_from_request :
  (forall req x, channel req = Some x -> x <> "" -> channelToUse req = x) /\
  (forall req y, truthy (channel req) = false -> defaultChannel req = Some y -> y <> "" ->
     channelToUse req = y) /\
  (forall req z, truthy (channel req) = false -> truthy (defaultChannel req) = false ->
     default_channel req = Some z -> z <> "" -> channelToUse req = z) /\
  (forall req, truthy (channel req) = false -> truthy (defaultChannel req) = false ->
     truthy (default_channel req) = false -> channelToUse req = "staging") /\
  (forall req s l n, decision_of (with_device_channels s l n) req = decision_of s req).
Proof.
  unfold channelToUse, or_str, truthy.
  split; [|split; [|split; [|split]]].
  - intros req x H Hx. rewrite H. apply String.eqb_neq in Hx. rewrite Hx. reflexivity.
  - intros req y Hc H Hy. rewrite H. apply String.eqb_neq in Hy. rewrite Hy.
    destruct (channel req) as [x|]; [|reflexivity].
    destruct (String.eqb x ""); [reflexivity|discriminate].
  - intros req z Hc Hd H Hz. rewrite H. apply String.eqb_neq in Hz. rewrite Hz.
    destruct (channel req) as [x|];
      [destruct (String.eqb x ""); [|discriminate]|];
      (destruct (defaultChannel req) as [y|];
        [destruct (String.eqb y ""); [reflexivity|discriminate]|reflexivity]).
  - intros req Hc Hd Hz.
    destruct (channel req) as [x|];
      [destruct (String.eqb x ""); [|discriminate]|];
      (destruct (defaultChannel req) as [y|];
        [destruct (String.eqb y ""); [|discriminate]|]);
      (destruct (default_channel req) as [z|];
        [destruct (String.eqb z ""); [reflexivity|discriminate]|reflexivity]).
  - intros req s0 l n. reflexivity.
Qed.

Lemma checkForUpdate_channel_from_request_witness :
  channelToUse (Fixture.req (Some "1.2.0") None (Some "d1")) = "production".
Proof.
  apply (proj1 (proj2 checkForUpdate_channel_from_request)
           (Fixture.req (Some "1.2.0") None (Some "d1")) "production");
    [reflexivity|reflexivity|discriminate].
Defined.

(** C2 (counterexample): device "d1" is registered on "beta", where 2.0.0 is
    published; its check with the hint "production" resolves "production"
    and gets no update, whereas the "beta" channel would have offered 2.0.0. *)
Lemma checkForUpdate_ignores_stored_channel :
  getDeviceChannel Fixture.store2 "d1" "com.example.app" = "beta" /\
  channelToUse (Fixture.req (Some "1.2.0") None (Some "d1")) = "production" /\
  fst (checkForUpdate (Fixture.req (Some "1.2.0") None (Some "d1")) Fixture.store2)
    = Ok (resp_message "No update available") /\
  fst (checkForUpdate
         (mkUpdateRequest "com.example.app" (Some "beta") None None None None
            (Some "1.2.0") "android" (Some "d1")) Fixture.store2)
    = Ok (resp_update Fixture.v200).
Proof. repeat split; reflexivity. Qed.

(** C3 (amended): [assignChannel] does not read the channel's
    [allow_device_self_set] flag: once the app and the named channel are
    found and the [device_channels] table accepts writes, it persists a row
    for the device on that channel, whatever the flag. It rejects only an
    unknown app, an unknown channel, or a failed write. *)
Theorem assignChannel_persists_without_policy a s u c :
  resolveAppUuid s (a_appId a) = Some u ->
  one_row (filter (fun c' => String.eqb (ch_app_id c') u
                             && String.eqb (ch_name c') (a_channel a)) (channels s)) = Some c ->
  writable s "device_channels" = true ->
  exists s', assignChannel a s = (Ok tt, s') /\
    exists r, In r (device_channels s') /\ dc_device_id r = a_deviceId a /\
              dc_channel_id r = ch_id c /\ dc_platform r = a_platform a.
Proof.
  intros Hu Hc Hw. unfold assignChannel, bind, get. cbv beta. rewrite Hu, Hc.
  destruct (device_channel_row s (a_deviceId a) (ch_id c)) as [e|] eqn:He.
  - unfold update_device_channel. rewrite Hw. eexists; split; [reflexivity|].
    apply one_row_In, filter_In in He. destruct He as [Hin Hp].
    apply andb_prop in Hp. destruct Hp as [Hd Hch].
    apply String.eqb_eq in Hd, Hch.
    exists (mkDeviceChannel (dc_id e) (dc_device_id e) (dc_channel_id e) (a_platform a)).
    cbn. split; [|auto].
    apply in_map_iff. exists e. rewrite Nat.eqb_refl. auto.
  - unfold insert_device_channel. rewrite Hw. eexists; split; [reflexivity|].
    eexists. cbn. split; [apply in_or_app; right; left; reflexivity|auto].
Qed.

Lemma assignChannel_persists_without_policy_witness :
  exists s', assignChannel Fixture.assign_prod (Fixture.store (Fixture.v120 None true) [])
               = (Ok tt, s') /\
    exists r, In r (device_channels s') /\ dc_device_id r = "d1" /\
              dc_channel_id r = "c1" /\ dc_platform r = "android".
Proof.
  apply (assignChannel_persists_without_policy Fixture.assign_prod
           (Fixture.store (Fixture.v120 None true) []) "u1" (Fixture.prod false));
    reflexivity.
Defined.

(** C3 (counterexample): "production" has [allow_device_self_set = false];
    the self-assignment of "d1" succeeds and inserts its row. *)
Lemma assignChannel_ignores_self_assign_flag :
  allow_device_self_set (Fixture.prod false) = false /\
  assignChannel Fixture.assign_prod (Fixture.store (Fixture.v120 None true) [])
  = (Ok tt, with_device_channels (Fixture.store (Fixture.v120 None true) [])
              [mkDeviceChannel 0 "d1" "c1" "android"] 1).
Proof. split; reflexivity. Qed.

(** C9 (failing input): "d1" is registered on "beta"; assigning it to
    "production" inserts a second row instead of updating the first, and
    [getDeviceChannel], which reads a single row, then falls back to
    "stable". A check-in on "production" duplicates the row the same way. *)
Theorem device_channels_duplicate_on_reassign :
  let dev_rows s := filter (fun r => String.eqb (dc_device_id r) "d1") (device_channels s) in
  length (dev_rows Fixture.store2) = 1%nat /\
  getDeviceChannel Fixture.store2 "d1" "com.example.app" = "beta" /\
  length (dev_rows (snd (assignChannel Fixture.assign_prod Fixture.store2))) = 2%nat /\
  getDeviceChannel (snd (assignChannel Fixture.assign_prod Fixture.store2)) "d1" "com.example.app"
    = "stable" /\
  length (dev_rows (snd (checkForUpdate (Fixture.req (Some "1.1.0") None (Some "d1"))
                           Fixture.store2))) = 2%nat.
Proof. cbv zeta. repeat split; reflexivity. Qed.

(** C8 (amended): [compareVersions a b] is the lexicographic comparison of
    the two segment tuples zero-padded to the longer length, where a segment
    is read by JavaScript [parseInt] ([|| 0] for NaN): leading whitespace
    and a sign are accepted, the longest digit prefix is read, "0x" selects
    hexadecimal. The comparison is reflexive, antisymmetric and transitive. *)
Theorem compareVersions_lexicographic_order :
  (forall a b,
     compareVersions a b =
       let n := Nat.max (length (parts a)) (length (parts b)) in
       cmp_to_Z (lex (pad (parts a) n) (pad (parts b) n))) /\
  (forall v, compareVersions v v = 0) /\
  (forall a b, compareVersions b a = - compareVersions a b) /\
  (forall a b c, compareVersions a b <= 0 -> compareVersions b c <= 0 ->
     compareVersions a c <= 0) /\
  (forall a b c, compareVersions a b < 0 -> compareVersions b c < 0 ->
     compareVersions a c < 0) /\
  (forall a b c, compareVersions a b = 0 -> compareVersions b c = 0 ->
     compareVersions a c = 0).
Proof.
  split; [|split; [|split; [|split; [|split]]]].
  - intros a b. cbv zeta. unfold compareVersions. cbv zeta.
    apply VersionFacts.cmp_loop_lex. rewrite !VersionFacts.pad_length by lia. reflexivity.
  - intros v. apply VersionFacts.cmp_loop_refl.
  - apply VersionFacts.compareVersions_flip.
  - apply VersionFacts.compareVersions_trans_le.
  - intros a b c Hab Hbc.
    destruct (VersionFacts.compareVersions_range a c) as [H|[H|H]]; try lia.
    + assert (compareVersions b a <= 0)
        by (apply (VersionFacts.compareVersions_trans_le b c a);
            [lia|rewrite VersionFacts.compareVersions_flip; lia]).
      rewrite VersionFacts.compareVersions_flip in H0; lia.
    + assert (compareVersions b a <= 0)
        by (apply (VersionFacts.compareVersions_trans_le b c a);
            [lia|rewrite VersionFacts.compareVersions_flip; lia]).
      rewrite VersionFacts.compareVersions_flip in H0; lia.
  - intros a b c Hab Hbc.
    assert (compareVersions a c <= 0) by (apply (VersionFacts.compareVersions_trans_le a b c); lia).
    assert (compareVersions c a <= 0)
      by (apply (VersionFacts.compareVersions_trans_le c b a);
          rewrite VersionFacts.compareVersions_flip; lia).
    rewrite VersionFacts.compareVersions_flip in H0. lia.
Qed.

Lemma compareVersions_lexicographic_order_witness :
  compareVersions "1.2.0" "1.3" < 0.
Proof.
  apply (proj1 (proj2 (proj2 (proj2 (proj2 compareVersions_lexicographic_order))))
           "1.2.0" "1.2.5" "1.3"); vm_compute; reflexivity.
Defined.

(** C8 (counterexample): the segment "-1" is not a non-negative integer, so
    the spec's reading takes it as 0 and finds "1.-1" equal to "1.0";
    [parseInt] reads -1 and [compareVersions] finds it smaller. *)
Lemma compareVersions_negative_segment :
  compareVersions "1.-1" "1.0" = -1 /\ spec_compare "1.-1" "1.0" = 0.
Proof. split; reflexivity. Qed.

(** C10: [getAvailableChannels] of updateService.ts reports every channel
    with [public] and [allow_self_set] set to [true] and its name as its id;
    each listed name is the [channel] value of an active [updates] row of the
    app and platform, no name is listed twice, and the channel records (and
    their policy flags) are not read. The query keeps the default limit of
    100 rows, so every such channel is listed when at most 100 rows match. *)
Theorem getAvailableChannels_hardcoded_flags :
  forall s appId platform,
    (forall ci, In ci (Legacy.getAvailableChannels s appId platform) ->
       Legacy.info_public ci = Some true /\ Legacy.info_allow_self_set ci = Some true /\
       Legacy.info_id ci = Legacy.info_name ci) /\
    (forall name, In name (map Legacy.info_name (Legacy.getAvailableChannels s appId platform)) ->
       exists u, In u (Legacy.updates s) /\
         (Legacy.u_app_id u = appId /\ Legacy.u_platform u = platform /\
          Legacy.u_active u = true) /\ Legacy.u_channel u = name) /\
    ((length (filter (fun u => String.eqb (Legacy.u_app_id u) appId
                               && String.eqb (Legacy.u_platform u) platform
                               && Legacy.u_active u) (Legacy.updates s)) <= 100)%nat ->
     forall name, In name (map Legacy.info_name (Legacy.getAvailableChannels s appId platform)) <->
       exists u, In u (Legacy.updates s) /\
         (Legacy.u_app_id u = appId /\ Legacy.u_platform u = platform /\
          Legacy.u_active u = true) /\ Legacy.u_channel u = name) /\
    NoDup (map Legacy.info_name (Legacy.getAvailableChannels s appId platform)) /\
    (forall cs, Legacy.getAvailableChannels (Legacy.mkLegacyStore (Legacy.updates s) cs) appId platform
                = Legacy.getAvailableChannels s appId platform).
Proof.
  intros s appId platform. unfold Legacy.getAvailableChannels.
  rewrite map_map. cbn [Legacy.info_name]. rewrite map_id.
  set (f := fun u => String.eqb (Legacy.u_app_id u) appId
                     && String.eqb (Legacy.u_platform u) platform && Legacy.u_active u).
  assert (Hf : forall u, In u (filter f (Legacy.updates s)) <->
                         In u (Legacy.updates s) /\
                         (Legacy.u_app_id u = appId /\ Legacy.u_platform u = platform /\
                          Legacy.u_active u = true)).
  { intros u. rewrite filter_In. unfold f.
    rewrite !andb_true_iff, !String.eqb_eq. tauto. }
  assert (Hfirst : forall u, In u (firstn 100 (filter f (Legacy.updates s))) ->
                             In u (filter f (Legacy.updates s))).
  { intros u Hu. rewrite <- (firstn_skipn 100 (filter f (Legacy.updates s))).
    apply in_or_app. left. exact Hu. }
  split; [|split; [|split; [|split]]].
  - intros ci Hci. apply in_map_iff in Hci. destruct Hci as [ch [<- _]]. cbn. auto.
  - intros name Hn. rewrite LegacyFacts.uniq_In, in_map_iff in Hn.
    destruct Hn as [u [Hc Hu]]. apply Hfirst, Hf in Hu. exists u. tauto.
  - intros Hlen name. rewrite (firstn_all2 _ Hlen), LegacyFacts.uniq_In, in_map_iff.
    split.
    + intros [u [Hc Hu]]. apply Hf in Hu. exists u. tauto.
    + intros [u (Hin & Hm & Hc)]. exists u. split; [exact Hc|]. apply Hf. auto.
  - apply LegacyFacts.uniq_NoDup.
  - intros cs. reflexivity.
Qed.

Lemma getAvailableChannels_hardcoded_flags_witness :
  Legacy.getAvailableChannels
    (Legacy.mkLegacyStore
       [Legacy.mkUpdateRow "app" "android" "beta" true;
        Legacy.mkUpdateRow "app" "android" "beta" true;
        Legacy.mkUpdateRow "app" "android" "stable" false]
       [mkChannel "c2" "app" "beta" None false false]) "app" "android"
  = [Legacy.mkChannelInfo "beta" "beta" (Some true) (Some true)] /\
  (forall name, In name (map Legacy.info_name (Legacy.getAvailableChannels
    (Legacy.mkLegacyStore
       [Legacy.mkUpdateRow "app" "android" "beta" true;
        Legacy.mkUpdateRow "app" "android" "beta" true;
        Legacy.mkUpdateRow "app" "android" "stable" false]
       [mkChannel "c2" "app" "beta" None false false]) "app" "android")) <->
   exists u, In u [Legacy.mkUpdateRow "app" "android" "beta" true;
                   Legacy.mkUpdateRow "app" "android" "beta" true;
                   Legacy.mkUpdateRow "app" "android" "stable" false] /\
     (Legacy.u_app_id u = "app" /\ Legacy.u_platform u = "android" /\
      Legacy.u_active u = true) /\ Legacy.u_channel u = name).
Proof.
  split; [reflexivity|].
  apply (proj1 (proj2 (proj2 (getAvailableChannels_hardcoded_flags
    (Legacy.mkLegacyStore
       [Legacy.mkUpdateRow "app" "android" "beta" true;
        Legacy.mkUpdateRow "app" "android" "beta" true;
        Legacy.mkUpdateRow "app" "android" "stable" false]
       [mkChannel "c2" "app" "beta" None false false]) "app" "android")))).
  cbn. lia.
Defined.
(** * Further properties of the code *)

(** ** List facts *)
Module ListFacts.

Lemma filter_none {A} (f : A -> bool) l :
  (forall x, In x l -> f x = false) -> filter f l = [].
Proof.
  induction l as [|x l IH]; intros H; [reflexivity|]. cbn.
  rewrite (H x (or_introl eq_refl)). apply IH. intros y Hy. apply H. right. exact Hy.
Qed.

Lemma length_filter_map_eq {A} (f : A -> bool) (g : A -> A) l :
  (forall x, f (g x) = f x) -> length (filter f (map g l)) = length (filter f l).
Proof.
  intros H. induction l as [|x l IH]; cbn; [reflexivity|].
  rewrite H. destruct (f x); cbn; rewrite IH; reflexivity.
Qed.

Lemma filter_map_same {A} (f : A -> bool) (g : A -> A) l :
  (forall x, f (g x) = f x) -> filter f (map g l) = map g (filter f l).
Proof.
  intros H. induction l as [|x l IH]; cbn; [reflexivity|].
  rewrite H. destruct (f x); cbn; rewrite IH; reflexivity.
Qed.

Lemma existsb_ext_in {A} (f g : A -> bool) l :
  (forall x, In x l -> f x = g x) -> existsb f l = existsb g l.
Proof.
  induction l as [|x l IH]; intros H; cbn; [reflexivity|].
  rewrite (H x (or_introl eq_refl)), IH; [reflexivity|].
  intros y Hy. apply H. right. exact Hy.
Qed.

Lemma find_none_all {A} (f : A -> bool) l :
  (forall x, In x l -> f x = false) -> find f l = None.
Proof.
  induction l as [|x l IH]; intros H; cbn; [reflexivity|].
  rewrite (H x (or_introl eq_refl)). apply IH. intros y Hy. apply H. right. exact Hy.
Qed.

Lemma find_app_or {A} (f : A -> bool) l1 l2 :
  find f (l1 ++ l2) = match find f l1 with Some x => Some x | None => find f l2 end.
Proof. induction l1 as [|x l1 IH]; cbn; [reflexivity|]. destruct (f x); [reflexivity|exact IH]. Qed.

Lemma existsb_and_filter {A} (f g : A -> bool) l :
  existsb (fun x => f x && g x) l = existsb g (filter f l).
Proof. induction l as [|x l IH]; cbn; [reflexivity|]. destruct (f x); cbn; rewrite IH; reflexivity. Qed.

Lemma find_hd_filter {A} (f : A -> bool) l : find f l = hd_error (filter f l).
Proof. induction l as [|x l IH]; cbn; [reflexivity|]. destruct (f x); [reflexivity|exact IH]. Qed.

End ListFacts.

(** ** Lemmas on the service, the stats logger and the legacy rows *)
Module ServiceExtraFacts.
Import JS Version Store Monad Service Decision ServiceFacts Analysis VersionFacts ListFacts.

Lemma split_dot_nonempty s : split_dot s <> [].
Proof.
  induction s as [|c s IH]; cbn; [discriminate|].
  destruct (Ascii.eqb c "."); [discriminate|].
  destruct (split_dot s); [contradiction|discriminate].
Qed.

Lemma split_dot_app_dot a t :
  split_dot (a ++ String "." t) = split_dot a ++ split_dot t.
Proof.
  induction a as [|c a IH]; [reflexivity|].
  cbn [String.append split_dot]. rewrite IH.
  destruct (Ascii.eqb c "."); [reflexivity|].
  destruct (split_dot a) eqn:E; [exfalso; exact (split_dot_nonempty a E)|].
  reflexivity.
Qed.

Lemma parts_app_zero v : parts (v ++ ".0") = parts v ++ [0].
Proof. unfold parts. rewrite split_dot_app_dot, map_app. reflexivity. Qed.

Lemma pad_app_zero l n : (length l < n)%nat -> pad (l ++ [0]) n = pad l n.
Proof.
  intros H. unfold pad. rewrite <- app_assoc. f_equal.
  rewrite length_app. cbn. replace (n - length l)%nat with (S (n - (length l + 1)))%nat by lia.
  reflexivity.
Qed.

Lemma compareVersions_app_zero_l v w : compareVersions (v ++ ".0") w = compareVersions v w.
Proof.
  set (n := Nat.max (S (length (parts v))) (length (parts w))).
  rewrite (compareVersions_pad (v ++ ".0") w n), (compareVersions_pad v w n);
    rewrite ?parts_app_zero, ?length_app; cbn [length]; try lia.
  rewrite pad_app_zero by lia. reflexivity.
Qed.

Lemma snd_bind {A B} (m : M A) (k : A -> M B) s :
  snd (bind m k s) = match m s with (Ok a, s1) => snd (k a s1) | (Throw _, s1) => s1 end.
Proof. unfold bind. destruct (m s) as [[a|e] s1]; reflexivity. Qed.

Lemma one_row_none_short {A} (l : list A) :
  one_row l = None -> (length l <= 1)%nat -> l = [].
Proof. destruct l as [|a [|b l]]; cbn; intros H1 H2; try discriminate; auto; lia. Qed.

Lemma device_channel_row_key s d c :
  device_channel_row s d c = one_row (filter (dc_key d c) (device_channels s)).
Proof. reflexivity. Qed.

Lemma dc_unique_ext s s' :
  device_channels s' = device_channels s -> dc_unique s -> dc_unique s'.
Proof. intros E H d c. rewrite E. apply H. Qed.

Lemma insert_update_log_tables row s :
  device_channels (snd (insert_update_log row s)) = device_channels s /\
  catalogue (snd (insert_update_log row s)) = catalogue s.
Proof. unfold insert_update_log. destruct (writable s _); split; reflexivity. Qed.

Lemma insert_dc_unique d c p s :
  dc_unique s -> device_channel_row s d c = None ->
  dc_unique (snd (insert_device_channel d c p s)).
Proof.
  intros H Hn. unfold insert_device_channel.
  destruct (writable s _); cbn [snd]; [|exact H].
  intros d' c'. unfold with_device_channels; cbn [device_channels]. rewrite filter_app, length_app. cbn.
  unfold dc_key at 2; cbn.
  destruct (String.eqb d d') eqn:E1; destruct (String.eqb c c') eqn:E2; cbn;
    try (rewrite Nat.add_0_r; apply H).
  apply String.eqb_eq in E1, E2. subst d' c'.
  rewrite device_channel_row_key in Hn.
  rewrite (one_row_none_short _ Hn (H d c)). cbn. lia.
Qed.

Lemma update_dc_unique i p s :
  dc_unique s -> dc_unique (snd (update_device_channel i p s)).
Proof.
  intros H. unfold update_device_channel.
  destruct (writable s _); cbn [snd]; [|exact H].
  intros d c. unfold with_device_channels; cbn [device_channels]. rewrite length_filter_map_eq; [apply H|].
  intros r. destruct (Nat.eqb _ _); reflexivity.
Qed.

Lemma insert_dc_catalogue d c p s :
  catalogue (snd (insert_device_channel d c p s)) = catalogue s.
Proof. unfold insert_device_channel. destruct (writable s _); reflexivity. Qed.

Lemma update_dc_catalogue i p s :
  catalogue (snd (update_device_channel i p s)) = catalogue s.
Proof. unfold update_device_channel. destruct (writable s _); reflexivity. Qed.

Lemma checkIn_dc_unique req u c v s :
  dc_unique s -> dc_unique (snd (checkIn req u c v s)).
Proof.
  intros H. unfold checkIn.
  destruct (deviceId req) as [d|]; [|exact H].
  destruct (String.eqb d ""); [exact H|].
  rewrite snd_bind. destruct (insert_update_log_tables
    (mkUpdateLog d u (req_version_name req) (version_name v) (platform req) "get") s) as [E _].
  destruct (insert_update_log _ s) as [[[]|e] s1]; cbn in E |- *;
    [|exact (dc_unique_ext _ _ E H)].
  pose proof (dc_unique_ext _ _ E H) as H1; clear H; rename H1 into H.
  destruct (device_channel_row s1 d (ch_id c)) eqn:Hr; [exact H|].
  apply insert_dc_unique; assumption.
Qed.

Lemma checkIn_catalogue req u c v s :
  catalogue (snd (checkIn req u c v s)) = catalogue s.
Proof.
  unfold checkIn.
  destruct (deviceId req) as [d|]; [|reflexivity].
  destruct (String.eqb d ""); [reflexivity|].
  rewrite snd_bind. destruct (insert_update_log_tables
    (mkUpdateLog d u (req_version_name req) (version_name v) (platform req) "get") s) as [_ E].
  destruct (insert_update_log _ s) as [[[]|e] s1]; cbn in E |- *; [|exact E].
  destruct (device_channel_row s1 d (ch_id c)); cbn; [exact E|].
  rewrite insert_dc_catalogue. exact E.
Qed.

Lemma writable_with_update_logs s l t :
  writable (with_update_logs s l) t = writable s t.
Proof. reflexivity. Qed.

Lemma joined_count (F : DeviceChannel -> list string) d cid n l :
  (forall r, In r l -> dc_device_id r = d ->
     F r = if String.eqb (dc_channel_id r) cid then [n] else []) ->
  flat_map F (filter (fun r => String.eqb (dc_device_id r) d) l) =
  repeat n (length (filter (dc_key d cid) l)).
Proof.
  induction l as [|r l IH]; intros H; [reflexivity|].
  pose proof (IH (fun r' Hr' => H r' (or_intror Hr'))) as IH'.
  cbn [filter]. unfold dc_key at 1.
  destruct (String.eqb (dc_device_id r) d) eqn:E; cbn [andb].
  - apply String.eqb_eq in E. cbn [flat_map]. rewrite (H r (or_introl eq_refl) E), IH'.
    destruct (String.eqb (dc_channel_id r) cid); reflexivity.
  - exact IH'.
Qed.

Lemma one_row_some_length {A} (l : list A) x : one_row l = Some x -> length l = 1%nat.
Proof. destruct l as [|a [|b l]]; cbn; intros H; try discriminate; reflexivity. Qed.

Lemma resolve_with_dc s l n x :
  resolveAppUuid (with_device_channels s l n) x = resolveAppUuid s x.
Proof. reflexivity. Qed.

Lemma l_insert_row_unique app device channel platform s s' :
  l_unique s -> filter (l_key app device) (LegacyDevices.l_rows s) = [] ->
  LegacyDevices.l_insert_row app device channel platform s = LegacyDevices.LOk s' ->
  l_unique s' /\
  filter (l_key app device) (LegacyDevices.l_rows s') =
    [LegacyDevices.mkLDeviceChannel (LegacyDevices.l_next_id s) app device channel platform].
Proof.
  intros H L E. unfold LegacyDevices.l_insert_row in E.
  destruct (LegacyDevices.l_writable s _); [|discriminate].
  injection E as <-. split.
  - intros a d. cbn [LegacyDevices.l_rows]. rewrite filter_app, length_app. cbn.
    unfold l_key at 2; cbn.
    destruct (String.eqb app a) eqn:E1; destruct (String.eqb device d) eqn:E2; cbn;
      try (rewrite Nat.add_0_r; apply H).
    apply String.eqb_eq in E1, E2. subst a d. rewrite L. cbn. lia.
  - cbn [LegacyDevices.l_rows]. rewrite filter_app, L. cbn.
    unfold l_key; cbn. rewrite !String.eqb_refl. reflexivity.
Qed.

Lemma l_matching_key s a d :
  LegacyDevices.l_matching s a d = firstn 100 (filter (l_key a d) (LegacyDevices.l_rows s)).
Proof. reflexivity. Qed.

End ServiceExtraFacts.

(** ** Lemmas on [normalizeRequestFields] *)
Module NormalizerFacts.
Import JSObj FieldNormalizer Analysis ListFacts.

Lemma find_key_map k k' v (o : obj) :
  find (fun kv => String.eqb (fst kv) k)
       (map (fun kv => if String.eqb (fst kv) k' then (k', v) else kv) o) =
  option_map (fun kv => if String.eqb (fst kv) k' then (k', v) else kv)
       (find (fun kv => String.eqb (fst kv) k) o).
Proof.
  induction o as [|[k0 v0] o IH]; cbn; [reflexivity|].
  destruct (String.eqb k0 k') eqn:E1; cbn.
  - apply String.eqb_eq in E1. subst k0.
    destruct (String.eqb k' k); cbn; [rewrite String.eqb_refl; reflexivity|]. rewrite IH. reflexivity.
  - destruct (String.eqb k0 k); cbn; [rewrite E1; reflexivity|exact IH].
Qed.

Lemma has_find k (o : obj) : has k o = match find (fun (kv : string * jsval) => String.eqb (fst kv) k) o with Some _ => true | None => false end.
Proof.
  induction o as [|[k0 v0] o IH]; cbn; [reflexivity|].
  destruct (String.eqb k0 k); [reflexivity|exact IH].
Qed.

Lemma find_key_eq k (o : obj) kv : find (fun (kv : string * jsval) => String.eqb (fst kv) k) o = Some kv -> fst kv = k.
Proof.
  intros H. apply find_some in H as [_ H]. apply String.eqb_eq, H.
Qed.

Lemma has_set k k' v o : has k (set k' v o) = String.eqb k k' || has k o.
Proof.
  unfold set. destruct (has k' o) eqn:Hk'.
  - rewrite !has_find, find_key_map.
    destruct (String.eqb k k') eqn:E; cbn.
    + apply String.eqb_eq in E. subst k'. rewrite has_find in Hk'.
      destruct (find _ o); [reflexivity|discriminate].
    + destruct (find _ o); reflexivity.
  - unfold has. rewrite existsb_app. cbn.
    rewrite orb_false_r, orb_comm. f_equal. apply String.eqb_sym.
Qed.

Lemma get_set k k' v o : get k (set k' v o) = if String.eqb k k' then v else get k o.
Proof.
  unfold set, get. destruct (has k' o) eqn:Hk'; rewrite has_find in Hk'.
  - rewrite find_key_map.
    destruct (String.eqb k k') eqn:E.
    + apply String.eqb_eq in E. subst k'.
      destruct (find _ o) as [kv|] eqn:F; [|discriminate]. cbn.
      rewrite (find_key_eq _ _ _ F), String.eqb_refl. reflexivity.
    + destruct (find (fun kv : string * jsval => String.eqb (fst kv) k) o) as [kv|] eqn:F;
        cbn; [|reflexivity].
      rewrite (find_key_eq _ _ _ F), E. destruct kv; reflexivity.
  - rewrite find_app_or. destruct (String.eqb k k') eqn:E.
    + apply String.eqb_eq in E. subst k'.
      destruct (find _ o); [discriminate|]. cbn. rewrite String.eqb_refl. reflexivity.
    + destruct (find (fun kv => String.eqb (fst kv) k) o) as [[k0 v0]|]; [reflexivity|].
      cbn. rewrite String.eqb_sym, E. reflexivity.
Qed.

Lemma get_absent k o : has k o = false -> get k o = JUndef.
Proof.
  unfold get. rewrite has_find. destruct (find _ o) as [[]|]; [discriminate|reflexivity].
Qed.

(** One copy step. *)

Lemma has_step k m n :
  has k (copy_step n m) = has k n || (String.eqb k (snd m) && has (fst m) n).
Proof.
  unfold copy_step.
  destruct (has (fst m) n) eqn:H1, (has (snd m) n) eqn:H2; cbn [andb negb].
  - rewrite andb_true_r. destruct (String.eqb k (snd m)) eqn:E.
    + apply String.eqb_eq in E. subst k. rewrite H2. reflexivity.
    + rewrite orb_false_r. reflexivity.
  - rewrite has_set, andb_true_r. apply orb_comm.
  - rewrite andb_false_r, orb_false_r. reflexivity.
  - rewrite andb_false_r, orb_false_r. reflexivity.
Qed.

Lemma get_step k m n :
  get k (copy_step n m) =
  if String.eqb k (snd m) && negb (has k n) && has (fst m) n then get (fst m) n else get k n.
Proof.
  unfold copy_step.
  destruct (String.eqb k (snd m)) eqn:E.
  - apply String.eqb_eq in E. subst k.
    destruct (has (fst m) n), (has (snd m) n); cbn [andb negb];
      rewrite ?get_set, ?String.eqb_refl; reflexivity.
  - cbn [andb]. destruct (_ && _); rewrite ?get_set, ?E; reflexivity.
Qed.

(** A copy loop over mappings whose targets are distinct and are never
    sources. *)

Section Loop.

Variable ms : list (string * string).

Hypothesis targets_nodup : NoDup (map snd ms).

Hypothesis sources_not_targets :
  forall m m', In m ms -> In m' ms -> fst m <> snd m'.

Lemma loop_has_gen ms' k o :
  incl ms' ms -> NoDup (map snd ms') ->
  has k (fold_left copy_step ms' o) =
  has k o || existsb (fun m => String.eqb k (snd m) && has (fst m) o) ms'.
Proof.
  revert o. induction ms' as [|m ms' IH]; intros o Hi Hn; cbn [fold_left existsb];
    [apply eq_sym, orb_false_r|].
  inversion Hn as [|? ? Hnot Hn']; subst.
  rewrite IH by (auto; intros x Hx; apply Hi; right; exact Hx).
  rewrite has_step, <- orb_assoc. f_equal. f_equal.
  apply existsb_ext_in. intros m' Hm'. rewrite has_step.
  destruct (String.eqb (fst m') (snd m)) eqn:E; [|rewrite orb_false_r; reflexivity].
  apply String.eqb_eq in E. exfalso.
  exact (sources_not_targets m' m (Hi m' (or_intror Hm')) (Hi m (or_introl eq_refl)) E).
Qed.

Lemma loop_get_gen ms' k o :
  incl ms' ms -> NoDup (map snd ms') ->
  get k (fold_left copy_step ms' o) =
  match find (fun m => String.eqb k (snd m)) ms' with
  | Some m => if has k o then get k o else get (fst m) o
  | None => get k o
  end.
Proof.
  revert o. induction ms' as [|m ms' IH]; intros o Hi Hn; cbn [fold_left find]; [reflexivity|].
  inversion Hn as [|? ? Hnot Hn']; subst.
  rewrite IH by (auto; intros x Hx; apply Hi; right; exact Hx).
  rewrite has_step, get_step.
  destruct (String.eqb k (snd m)) eqn:E.
  - apply String.eqb_eq in E. subst k.
    replace (find _ ms') with (@None (string * string)).
    + cbn. destruct (has (snd m) o) eqn:H1; cbn; [reflexivity|].
      destruct (has (fst m) o) eqn:H2; [reflexivity|].
      rewrite !get_absent by assumption. reflexivity.
    + symmetry. apply find_none_all. intros m' Hm'. apply not_true_iff_false.
      intros Ek. apply String.eqb_eq in Ek. apply Hnot. rewrite Ek. apply in_map, Hm'.
  - cbn. destruct (find _ ms') as [m'|] eqn:F; [|reflexivity].
    assert (Hm' : In m' ms) by (apply find_some in F as [F _]; apply Hi; right; exact F).
    rewrite ?has_step, ?get_step.
    assert (Ne : String.eqb (fst m') (snd m) = false).
    { apply String.eqb_neq. apply sources_not_targets; [exact Hm'|apply Hi; left; reflexivity]. }
    rewrite Ne. cbn. rewrite orb_false_r. reflexivity.
Qed.

Lemma loop_has k o :
  has k (fold_left copy_step ms o) =
  has k o || existsb (fun m => String.eqb k (snd m) && has (fst m) o) ms.
Proof. apply loop_has_gen; [intros x Hx; exact Hx|exact targets_nodup]. Qed.

Lemma loop_get k o :
  get k (fold_left copy_step ms o) =
  match find (fun m => String.eqb k (snd m)) ms with
  | Some m => if has k o then get k o else get (fst m) o
  | None => get k o
  end.
Proof. apply loop_get_gen; [intros x Hx; exact Hx|exact targets_nodup]. Qed.

Lemma loop_noop o :
  (forall m, In m ms -> has (fst m) o = true -> has (snd m) o = true) ->
  fold_left copy_step ms o = o.
Proof.
  intros H. clear targets_nodup sources_not_targets.
  induction ms as [|m ms' IH]; cbn; [reflexivity|].
  unfold copy_step at 2.
  destruct (has (fst m) o) eqn:E1; cbn.
  - rewrite (H m (or_introl eq_refl) E1). cbn. apply IH. intros m' Hm'. apply H. right. exact Hm'.
  - apply IH. intros m' Hm'. apply H. right. exact Hm'.
Qed.

End Loop.

Lemma fold_left_map_swap (o : obj) (l : list (string * string)) :
  fold_left copy_step (map swap l) o = fold_left (fun n m => copy_step n (swap m)) l o.
Proof. revert o. induction l as [|m l IH]; intros o; cbn; [reflexivity|apply IH]. Qed.

Lemma to_camel_loop b : to_camel b = fold_left copy_step FIELD_MAPPINGS b.
Proof. reflexivity. Qed.

Lemma to_snake_loop b : to_snake b = fold_left copy_step (map swap FIELD_MAPPINGS) b.
Proof. rewrite fold_left_map_swap. reflexivity. Qed.

Lemma filter_target ms m :
  NoDup (map snd ms) -> In m ms ->
  filter (fun m' : string * string => String.eqb (snd m) (snd m')) ms = [m].
Proof.
  induction ms as [|m0 ms IH]; intros Hn Hm; [destruct Hm|].
  inversion Hn as [|? ? Hnot Hn']; subst. cbn.
  destruct Hm as [<-|Hm].
  - rewrite String.eqb_refl. f_equal. apply filter_none. intros m' Hm'.
    apply String.eqb_neq. intros E. apply Hnot. rewrite E. apply in_map, Hm'.
  - rewrite (IH Hn' Hm).
    destruct (String.eqb (snd m) (snd m0)) eqn:E; [|reflexivity].
    apply String.eqb_eq in E. exfalso. apply Hnot. rewrite <- E. apply in_map, Hm.
Qed.

Lemma filter_no_target (ms : list (string * string)) k :
  (forall m', In m' ms -> snd m' <> k) ->
  filter (fun m' : string * string => String.eqb k (snd m')) ms = [].
Proof.
  intros H. apply filter_none. intros m' Hm'. apply String.eqb_neq.
  intros E. exact (H m' Hm' (eq_sym E)).
Qed.

(** The shape of [FIELD_MAPPINGS]. *)

Lemma mappings_snd_nodup : NoDup (map snd FIELD_MAPPINGS).
Proof. cbn. repeat constructor; cbn; intuition discriminate. Qed.

Lemma mappings_fst_nodup : NoDup (map snd (map swap FIELD_MAPPINGS)).
Proof. cbn. repeat constructor; cbn; intuition discriminate. Qed.

Lemma mappings_disjoint_b :
  forallb (fun m => forallb (fun m' => negb (String.eqb (fst m) (snd m'))) FIELD_MAPPINGS)
          FIELD_MAPPINGS = true.
Proof. vm_compute. reflexivity. Qed.

Lemma mappings_disjoint m m' :
  In m FIELD_MAPPINGS -> In m' FIELD_MAPPINGS -> fst m <> snd m'.
Proof.
  intros Hm Hm' E. pose proof mappings_disjoint_b as H.
  rewrite forallb_forall in H. specialize (H m Hm). rewrite forallb_forall in H.
  specialize (H m' Hm'). rewrite E, String.eqb_refl in H. discriminate.
Qed.

Lemma swapped_disjoint m m' :
  In m (map swap FIELD_MAPPINGS) -> In m' (map swap FIELD_MAPPINGS) -> fst m <> snd m'.
Proof.
  intros Hm Hm'. apply in_map_iff in Hm as (x & <- & Hx), Hm' as (y & <- & Hy).
  cbn. intros E. exact (mappings_disjoint y x Hy Hx (eq_sym E)).
Qed.

Lemma mappings_not_action_status m :
  In m FIELD_MAPPINGS ->
  fst m <> "action" /\ fst m <> "status" /\ snd m <> "action" /\ snd m <> "status".
Proof. intros Hm. repeat (destruct Hm as [<-|Hm]; [cbn; repeat split; discriminate|]). destruct Hm. Qed.

Lemma action_status_other k o :
  k <> "action" -> k <> "status" ->
  has k (action_status o) = has k o /\ get k (action_status o) = get k o.
Proof.
  intros H1 H2. apply String.eqb_neq in H1, H2. unfold action_status.
  destruct (truthy (get "action" o) && negb (truthy (get "status" o)));
    rewrite ?has_set, ?get_set, ?H2; cbn;
    destruct (_ && _); rewrite ?has_set, ?get_set, ?H1, ?H2; auto.
Qed.

Lemma camel_has k b :
  has k (to_camel b) = has k b || existsb (fun m => String.eqb k (snd m) && has (fst m) b) FIELD_MAPPINGS.
Proof. rewrite to_camel_loop. apply loop_has; [exact mappings_snd_nodup|exact mappings_disjoint]. Qed.

Lemma camel_get k b :
  get k (to_camel b) =
  match find (fun m => String.eqb k (snd m)) FIELD_MAPPINGS with
  | Some m => if has k b then get k b else get (fst m) b
  | None => get k b
  end.
Proof. rewrite to_camel_loop. apply loop_get; [exact mappings_snd_nodup|exact mappings_disjoint]. Qed.

Lemma snake_has k o :
  has k (to_snake o) = has k o ||
    existsb (fun m => String.eqb k (snd m) && has (fst m) o) (map swap FIELD_MAPPINGS).
Proof. rewrite to_snake_loop. apply loop_has; [exact mappings_fst_nodup|exact swapped_disjoint]. Qed.

Lemma snake_get k o :
  get k (to_snake o) =
  match find (fun m => String.eqb k (snd m)) (map swap FIELD_MAPPINGS) with
  | Some m => if has k o then get k o else get (fst m) o
  | None => get k o
  end.
Proof. rewrite to_snake_loop. apply loop_get; [exact mappings_fst_nodup|exact swapped_disjoint]. Qed.

Lemma pair_loops b m : In m FIELD_MAPPINGS ->
  let o := to_snake (to_camel b) in
  has (fst m) o = has (fst m) b || (has (snd m) b || has (fst m) b) /\
  has (snd m) o = has (snd m) b || has (fst m) b /\
  get (snd m) o = (if has (snd m) b then get (snd m) b else get (fst m) b) /\
  get (fst m) o = (if has (fst m) b then get (fst m) b
                   else if has (snd m) b then get (snd m) b else get (fst m) b).
Proof.
  intros Hm o.
  assert (Hsw : In (swap m) (map swap FIELD_MAPPINGS)) by (apply in_map, Hm).
  (* the camel loop fills [snd m] only, from [fst m] *)
  assert (C1 : has (snd m) (to_camel b) = has (snd m) b || has (fst m) b).
  { rewrite camel_has, existsb_and_filter, (filter_target _ m mappings_snd_nodup Hm).
    cbn [existsb]. rewrite orb_false_r. reflexivity. }
  assert (Nf : forall m', In m' FIELD_MAPPINGS -> snd m' <> fst m)
    by (intros m' Hm' E; exact (mappings_disjoint m m' Hm Hm' (eq_sym E))).
  assert (C2 : has (fst m) (to_camel b) = has (fst m) b).
  { rewrite camel_has, existsb_and_filter, (filter_no_target _ _ Nf). apply orb_false_r. }
  assert (C3 : get (snd m) (to_camel b) = if has (snd m) b then get (snd m) b else get (fst m) b).
  { rewrite camel_get, find_hd_filter, (filter_target _ m mappings_snd_nodup Hm). reflexivity. }
  assert (C4 : get (fst m) (to_camel b) = get (fst m) b).
  { rewrite camel_get, find_hd_filter, (filter_no_target _ _ Nf). reflexivity. }
  (* the snake loop fills [fst m] only, from [snd m] *)
  assert (Ns : forall m', In m' (map swap FIELD_MAPPINGS) -> snd m' <> snd m).
  { intros m' Hm' E. apply in_map_iff in Hm' as (x & <- & Hx). cbn in E.
    exact (mappings_disjoint x m Hx Hm E). }
  unfold o. repeat split.
  - rewrite snake_has. change (fst m) with (snd (swap m)) at 1 2.
    rewrite existsb_and_filter, (filter_target _ _ mappings_fst_nodup Hsw).
    cbn [existsb swap fst snd]. rewrite orb_false_r, C1, C2. reflexivity.
  - rewrite snake_has, existsb_and_filter, (filter_no_target _ _ Ns), orb_false_r. exact C1.
  - rewrite snake_get, find_hd_filter, (filter_no_target _ _ Ns). exact C3.
  - rewrite snake_get. change (fst m) with (snd (swap m)) at 1 2.
    rewrite find_hd_filter, (filter_target _ _ mappings_fst_nodup Hsw).
    cbn [hd_error swap fst snd]. rewrite C2, C4, C3. destruct (has (fst m) b); reflexivity.
Qed.

Lemma other_loops b k : ~ In k mapped_keys ->
  has k (to_snake (to_camel b)) = has k b /\ get k (to_snake (to_camel b)) = get k b.
Proof.
  intros Hk.
  assert (N1 : forall m', In m' FIELD_MAPPINGS -> snd m' <> k).
  { intros m' Hm' E. apply Hk. unfold mapped_keys. apply in_or_app. right.
    rewrite <- E. apply in_map, Hm'. }
  assert (N2 : forall m', In m' (map swap FIELD_MAPPINGS) -> snd m' <> k).
  { intros m' Hm' E. apply in_map_iff in Hm' as (x & <- & Hx). apply Hk.
    unfold mapped_keys. apply in_or_app. left. rewrite <- E. destruct x as [p q].
    exact (in_map fst _ (p, q) Hx). }
  split.
  - rewrite snake_has, existsb_and_filter, (filter_no_target _ _ N2), orb_false_r.
    rewrite camel_has, existsb_and_filter, (filter_no_target _ _ N1), orb_false_r.
    reflexivity.
  - rewrite snake_get, find_hd_filter, (filter_no_target _ _ N2).
    rewrite camel_get, find_hd_filter, (filter_no_target _ _ N1). reflexivity.
Qed.

Lemma action_not_mapped : ~ In "action" mapped_keys.
Proof. cbn. intuition discriminate. Qed.

Lemma status_not_mapped : ~ In "status" mapped_keys.
Proof. cbn. intuition discriminate. Qed.

Lemma action_status_get o :
  get "action" (action_status o) =
    (if truthy (get "action" o) then get "action" o
     else if truthy (get "status" o) then get "status" o else get "action" o) /\
  get "status" (action_status o) =
    (if truthy (get "status" o) then get "status" o
     else if truthy (get "action" o) then get "action" o else get "status" o).
Proof.
  unfold action_status.
  destruct (truthy (get "action" o)) eqn:A, (truthy (get "status" o)) eqn:S; cbn [andb negb];
    rewrite ?get_set; cbn; rewrite ?A, ?S; cbn; rewrite ?get_set; cbn; rewrite ?S, ?A; auto.
Qed.

Lemma pairs_present_aux b :
  Forall (fun m => has (fst m) (normalizeBody b) = has (fst m) b || has (snd m) b /\
                   has (snd m) (normalizeBody b) = has (fst m) b || has (snd m) b)
         FIELD_MAPPINGS.
Proof.
  apply Forall_forall. intros m Hm.
  destruct (mappings_not_action_status m Hm) as (F1 & F2 & S1 & S2).
  destruct (pair_loops b m Hm) as (P1 & P2 & _).
  unfold normalizeBody.
  rewrite (proj1 (action_status_other _ _ F1 F2)), (proj1 (action_status_other _ _ S1 S2)).
  rewrite P1, P2. destruct (has (fst m) b), (has (snd m) b); split; reflexivity.
Qed.

Lemma action_status_aux b :
  get "action" (normalizeBody b) =
    (if truthy (get "action" b) then get "action" b
     else if truthy (get "status" b) then get "status" b else get "action" b) /\
  get "status" (normalizeBody b) =
    (if truthy (get "status" b) then get "status" b
     else if truthy (get "action" b) then get "action" b else get "status" b).
Proof.
  unfold normalizeBody.
  rewrite (proj1 (action_status_get _)), (proj2 (action_status_get _)).
  rewrite (proj2 (other_loops b _ action_not_mapped)), (proj2 (other_loops b _ status_not_mapped)).
  split; reflexivity.
Qed.

End NormalizerFacts.

(** ** Further properties: update service, stats logger, legacy rows *)
Import VersionFacts Analysis ListFacts ServiceExtraFacts.

(** X1: appending a [.0] segment to a version never changes how [compareVersions] orders it against any other version, on either side. *)
Theorem compareVersions_trailing_zero v w :
  compareVersions (v ++ ".0") w = compareVersions v w /\
  compareVersions w (v ++ ".0") = compareVersions w v.
Proof.
  split; [apply compareVersions_app_zero_l|].
  rewrite compareVersions_flip, (compareVersions_flip v w), compareVersions_app_zero_l.
  reflexivity.
Qed.

(** X2: [checkForUpdate] keeps at most one [device_channels] row per (device, channel): its check-in inserts a row only when the (device, channel) lookup found none. *)
Theorem checkForUpdate_keeps_dc_unique req s :
  dc_unique s -> dc_unique (snd (checkForUpdate req s)).
Proof.
  intros H. destruct (checkForUpdate_cases req s) as [E|(u & c & v & _ & _ & _ & E)];
    rewrite E; [exact H|].
  rewrite snd_bind. pose proof (checkIn_dc_unique req u c v s H) as H1.
  destruct (checkIn req u c v s) as [[[]|e] s1]; exact H1.
Qed.

Lemma checkForUpdate_keeps_dc_unique_witness :
  dc_unique (snd (checkForUpdate (Fixture.req (Some "1.0.0") None (Some "d2")) Fixture.store2)).
Proof.
  apply (checkForUpdate_keeps_dc_unique (Fixture.req (Some "1.0.0") None (Some "d2")) Fixture.store2).
  intros d c. unfold dc_key. simpl. destruct (_ && _); simpl; lia.
Defined.

(** X3: [assignChannel] keeps at most one [device_channels] row per (device, channel). *)
Theorem assignChannel_keeps_dc_unique a s :
  dc_unique s -> dc_unique (snd (assignChannel a s)).
Proof.
  intros H. unfold assignChannel, bind, get, throw; cbn.
  destruct (resolveAppUuid s (a_appId a)); [|exact H].
  destruct (one_row _) as [c|]; [|exact H].
  destruct (device_channel_row s (a_deviceId a) (ch_id c)) eqn:Hr.
  - apply update_dc_unique, H.
  - apply insert_dc_unique; assumption.
Qed.

Lemma assignChannel_keeps_dc_unique_witness :
  dc_unique (snd (assignChannel Fixture.assign_prod Fixture.store2)).
Proof.
  apply (assignChannel_keeps_dc_unique Fixture.assign_prod Fixture.store2).
  intros d c. unfold dc_key. simpl. destruct (_ && _); simpl; lia.
Defined.

(** X4: [logStats] keeps at most one [device_channels] row per (device, channel). *)
Theorem logStats_keeps_dc_unique st s :
  dc_unique s -> dc_unique (snd (ServiceRest.logStats st s)).
Proof.
  intros H. unfold ServiceRest.logStats. unfold bind at 1, get at 1, ret; cbn.
  destruct (resolveAppUuid s (ServiceRest.st_appId st)) as [u|]; [|exact H].
  rewrite snd_bind. match goal with |- context[insert_update_log ?row s] =>
    destruct (insert_update_log_tables row s) as [E _];
    destruct (insert_update_log row s) as [[[]|e] s1] end;
    cbn in E |- *; [|exact (dc_unique_ext _ _ E H)].
  pose proof (dc_unique_ext _ _ E H) as H1; clear H; rename H1 into H.
  destruct (one_row _) as [c|]; [|exact H].
  destruct (device_channel_row s1 _ (ch_id c)) eqn:Hr; [exact H|].
  apply insert_dc_unique; assumption.
Qed.

Lemma logStats_keeps_dc_unique_witness :
  dc_unique (snd (ServiceRest.logStats
    (ServiceRest.mkStatsRequest (Some "v2") None (Some "set") "d1" "com.example.app" "android" None)
    Fixture.store2)).
Proof.
  apply (logStats_keeps_dc_unique
    (ServiceRest.mkStatsRequest (Some "v2") None (Some "set") "d1" "com.example.app" "android" None)
    Fixture.store2).
  intros d c. unfold dc_key. simpl. destruct (_ && _); simpl; lia.
Defined.

(** X5: [checkForUpdate], [assignChannel] and [logStats] never change the [apps], [channels] and [app_versions] tables, whatever the outcome. *)
Theorem writers_keep_catalogue req a st s :
  catalogue (snd (checkForUpdate req s)) = catalogue s /\
  catalogue (snd (assignChannel a s)) = catalogue s /\
  catalogue (snd (ServiceRest.logStats st s)) = catalogue s.
Proof.
  split; [|split].
  - destruct (checkForUpdate_cases req s) as [E|(u & c & v & _ & _ & _ & E)];
      rewrite E; [reflexivity|].
    rewrite snd_bind. pose proof (checkIn_catalogue req u c v s) as H1.
    destruct (checkIn req u c v s) as [[[]|e] s1]; exact H1.
  - unfold assignChannel, bind, get, throw; cbn.
    destruct (resolveAppUuid s (a_appId a)); [|reflexivity].
    destruct (one_row _) as [c|]; [|reflexivity].
    destruct (device_channel_row s (a_deviceId a) (ch_id c));
      [apply update_dc_catalogue|apply insert_dc_catalogue].
  - unfold ServiceRest.logStats. unfold bind at 1, get at 1, ret; cbn.
    destruct (resolveAppUuid s (ServiceRest.st_appId st)) as [u|]; [|reflexivity].
    rewrite snd_bind. match goal with |- context[insert_update_log ?row s] =>
      destruct (insert_update_log_tables row s) as [_ E];
      destruct (insert_update_log row s) as [[[]|e] s1] end;
      cbn in E |- *; [|exact E].
    destruct (one_row _) as [c|]; [|exact E].
    destruct (device_channel_row s1 _ (ch_id c)); [exact E|].
    rewrite insert_dc_catalogue. exact E.
Qed.

(** X6: for an unknown app id, [checkForUpdate] answers [{ message: "App not found" }] and writes nothing. *)
Theorem checkForUpdate_unknown_app req s :
  resolveAppUuid s (appId req) = None ->
  checkForUpdate req s = (Ok (resp_message "App not found"), s).
Proof. intros H. unfold checkForUpdate, bind, get, ret; cbn. rewrite H. reflexivity. Qed.

Lemma checkForUpdate_unknown_app_witness :
  checkForUpdate (mkUpdateRequest "com.other.app" None None None None None None "android" (Some "d1"))
    Fixture.store2
  = (Ok (resp_message "App not found"), Fixture.store2).
Proof.
  apply (checkForUpdate_unknown_app
    (mkUpdateRequest "com.other.app" None None None None None None "android" (Some "d1"))
    Fixture.store2).
  reflexivity.
Defined.

(** X7: when the decision is not an update (unknown app, no bundle, platform mismatch, no newer version, native gate), [checkForUpdate] returns it without writing anything. *)
Theorem checkForUpdate_no_write_unless_update req s :
  (forall v, decision_of s req <> resp_update v) ->
  checkForUpdate req s = (Ok (decision_of s req), s).
Proof.
  intros H. destruct (checkForUpdate_cases req s) as [E|(u & c & v & _ & _ & Hd & _)];
    [exact E|]. exfalso. exact (H v Hd).
Qed.

Lemma checkForUpdate_no_write_unless_update_witness :
  checkForUpdate (Fixture.req (Some "1.2.0") None (Some "d1")) Fixture.store2
  = (Ok (resp_message "No update available"), Fixture.store2).
Proof.
  apply (checkForUpdate_no_write_unless_update (Fixture.req (Some "1.2.0") None (Some "d1"))
           Fixture.store2).
  intros v. vm_compute. discriminate.
Defined.

(** X8: when [checkForUpdate] offers bundle [v] of channel [c] to a device with a non-empty id and both tables accept writes, it returns the update, appends one ["get"] row to [update_logs], and afterwards the device has a row on [c]. *)
Theorem checkForUpdate_update_registers req s u c v d :
  resolveAppUuid s (appId req) = Some u ->
  channelLookup s u (channelToUse req) = Some (c, v) ->
  decision_of s req = resp_update v ->
  deviceId req = Some d -> d <> "" ->
  writable s "update_logs" = true -> writable s "device_channels" = true ->
  exists s', checkForUpdate req s = (Ok (resp_update v), s') /\
    update_logs s' = update_logs s ++
      [mkUpdateLog d u (req_version_name req) (version_name v) (platform req) "get"] /\
    exists r, In r (device_channels s') /\ dc_device_id r = d /\ dc_channel_id r = ch_id c.
Proof.
  intros Hu Hl Hd Hdev Hne Hw1 Hw2.
  unfold decision_of in Hd. rewrite Hu, Hl in Hd.
  unfold checkForUpdate, bind, get, ret. cbn beta iota. rewrite Hu, Hl.
  destruct (_ && _); [discriminate|].
  destruct (negb _); [discriminate|].
  destruct (_ && _); [discriminate|].
  clear Hd.
  unfold checkIn. rewrite Hdev.
  apply String.eqb_neq in Hne. rewrite Hne.
  unfold bind, insert_update_log. cbn. rewrite Hw1. cbn.
  destruct (device_channel_row _ d (ch_id c)) as [r|] eqn:Hr; cbn.
  - eexists; split; [reflexivity|]. split; [reflexivity|].
    exists r. apply one_row_In in Hr. apply filter_In in Hr as [Hin Hk].
    apply andb_true_iff in Hk as [K1 K2]. apply String.eqb_eq in K1, K2.
    cbn in Hin. auto.
  - unfold insert_device_channel. rewrite writable_with_update_logs, Hw2. cbn.
    eexists; split; [reflexivity|]. split; [reflexivity|].
    eexists. split; [apply in_or_app; right; left; reflexivity|]. cbn. auto.
Qed.

Lemma checkForUpdate_update_registers_witness :
  exists s', checkForUpdate (Fixture.req (Some "1.0.0") None (Some "d2")) Fixture.store2
               = (Ok (resp_update (Fixture.v120 None true)), s') /\
    update_logs s' = update_logs Fixture.store2 ++
      [mkUpdateLog "d2" "u1" (Some "1.0.0") "1.2.0" "android" "get"] /\
    exists r, In r (device_channels s') /\ dc_device_id r = "d2" /\
              dc_channel_id r = ch_id (Fixture.prod false).
Proof.
  apply (checkForUpdate_update_registers (Fixture.req (Some "1.0.0") None (Some "d2"))
           Fixture.store2 "u1" (Fixture.prod false) (Fixture.v120 None true) "d2");
    try reflexivity; try discriminate.
  all: vm_compute; reflexivity.
Defined.

(** X9: [assignChannel] for an unknown app throws ["App not found"] and writes nothing. *)
Theorem assignChannel_unknown_app a s :
  resolveAppUuid s (a_appId a) = None ->
  assignChannel a s = (Throw "App not found", s).
Proof. intros H. unfold assignChannel, bind, get, throw; cbn. rewrite H. reflexivity. Qed.

Lemma assignChannel_unknown_app_witness :
  assignChannel (mkAssignment "production" "d1" "com.other.app" "android") Fixture.store2
  = (Throw "App not found", Fixture.store2).
Proof.
  apply (assignChannel_unknown_app (mkAssignment "production" "d1" "com.other.app" "android")
           Fixture.store2).
  reflexivity.
Defined.

(** X10: [assignChannel] for a channel name the app does not have throws ["Channel '<name>' not found for app"] and writes nothing. *)
Theorem assignChannel_unknown_channel a s u :
  resolveAppUuid s (a_appId a) = Some u ->
  (forall c, In c (channels s) -> ch_app_id c = u -> ch_name c <> a_channel a) ->
  assignChannel a s =
    (Throw (String.concat "" ["Channel '"; a_channel a; "' not found for app"]), s).
Proof.
  intros Hu Hc. unfold assignChannel, bind, get, throw; cbn. rewrite Hu.
  replace (filter _ (channels s)) with (@nil Channel); [reflexivity|].
  symmetry. apply filter_none. intros c Hin.
  apply not_true_iff_false. intros Hk.
  apply andb_true_iff in Hk as [K1 K2]. apply String.eqb_eq in K1, K2.
  exact (Hc c Hin K1 K2).
Qed.

Lemma assignChannel_unknown_channel_witness :
  assignChannel (mkAssignment "nightly" "d1" "com.example.app" "android") Fixture.store2
  = (Throw "Channel 'nightly' not found for app", Fixture.store2).
Proof.
  apply (assignChannel_unknown_channel (mkAssignment "nightly" "d1" "com.example.app" "android")
           Fixture.store2 "u1"); [reflexivity|].
  intros c Hin _. simpl in Hin. destruct Hin as [<-|[<-|[]]]; simpl; discriminate.
Defined.

(** X11: round trip: when the device has no row on another channel of the app, channel ids are unique and writes succeed, [getDeviceChannel] returns the channel just set by [assignChannel]. *)
Theorem assignChannel_then_getDeviceChannel a s u c :
  resolveAppUuid s (a_appId a) = Some u ->
  one_row (filter (fun c0 => String.eqb (ch_app_id c0) u
                             && String.eqb (ch_name c0) (a_channel a)) (channels s)) = Some c ->
  find (fun c0 => String.eqb (ch_id c0) (ch_id c)) (channels s) = Some c ->
  (forall r c', In r (device_channels s) -> dc_device_id r = a_deviceId a ->
     dc_channel_id r <> ch_id c ->
     find (fun c0 => String.eqb (ch_id c0) (dc_channel_id r)) (channels s) = Some c' ->
     ch_app_id c' <> u) ->
  dc_unique s ->
  writable s "device_channels" = true ->
  exists s', assignChannel a s = (Ok tt, s') /\
             getDeviceChannel s' (a_deviceId a) (a_appId a) = a_channel a.
Proof.
  intros Hu Hc Hf Hother Huniq Hw.
  assert (Hcu : ch_app_id c = u /\ ch_name c = a_channel a).
  { apply one_row_In, filter_In in Hc as [_ Hk].
    apply andb_true_iff in Hk as [K1 K2]. apply String.eqb_eq in K1, K2. auto. }
  destruct Hcu as [Hcu Hcn].
  (* the rows of the device after the call, and the join over them *)
  assert (Hjoin : forall l,
    (forall r, In r l -> dc_device_id r = a_deviceId a ->
       dc_channel_id r = ch_id c \/ exists r0, In r0 (device_channels s) /\ dc_device_id r0 = dc_device_id r
                     /\ dc_channel_id r0 = dc_channel_id r) ->
    length (filter (dc_key (a_deviceId a) (ch_id c)) l) = 1%nat ->
    match one_row (flat_map (fun r =>
      match find (fun c0 => String.eqb (ch_id c0) (dc_channel_id r)) (channels s) with
      | Some c0 => if String.eqb (ch_app_id c0) u then [ch_name c0] else []
      | None => []
      end) (filter (fun r => String.eqb (dc_device_id r) (a_deviceId a)) l)) with
    | Some name => name | None => "stable" end = a_channel a).
  { intros l Hrows Hlen.
    rewrite (joined_count _ (a_deviceId a) (ch_id c) (ch_name c)).
    - rewrite Hlen. cbn. exact Hcn.
    - intros r Hr Hd. destruct (String.eqb (dc_channel_id r) (ch_id c)) eqn:E.
      + apply String.eqb_eq in E. rewrite E, Hf, Hcu, String.eqb_refl. reflexivity.
      + apply String.eqb_neq in E.
        cbv beta. destruct (find (fun c0 => String.eqb (ch_id c0) (dc_channel_id r)) (channels s)) as [c'|] eqn:Hfc; [|reflexivity].
        destruct (String.eqb (ch_app_id c') u) eqn:Ea; [|reflexivity].
        apply String.eqb_eq in Ea. exfalso.
        destruct (Hrows r Hr Hd) as [Hcid|(r0 & Hin & Hd0 & Hc0)].
        * exact (E Hcid).
        * rewrite <- Hc0 in E, Hfc. rewrite <- Hd0 in Hd.
          exact (Hother r0 c' Hin Hd E Hfc Ea). }
  unfold assignChannel, bind, get; cbn. rewrite Hu, Hc.
  destruct (device_channel_row s (a_deviceId a) (ch_id c)) as [e|] eqn:Hr.
  - unfold update_device_channel. rewrite Hw. eexists. split; [reflexivity|].
    unfold getDeviceChannel. rewrite resolve_with_dc, Hu. apply Hjoin.
    + unfold with_device_channels; cbn [device_channels].
      intros r Hr' Hd. apply in_map_iff in Hr' as (r0 & Er & Hin). subst r. right.
      exists r0. destruct (Nat.eqb _ _); auto.
    + unfold with_device_channels; cbn [device_channels]. rewrite length_filter_map_eq.
      * rewrite device_channel_row_key in Hr. exact (one_row_some_length _ _ Hr).
      * intros r. destruct (Nat.eqb _ _); reflexivity.
  - unfold insert_device_channel. rewrite Hw. eexists. split; [reflexivity|].
    unfold getDeviceChannel. rewrite resolve_with_dc, Hu. apply Hjoin.
    + unfold with_device_channels; cbn [device_channels].
      intros r Hr' Hd. apply in_app_or in Hr' as [Hin|[<-|[]]].
      * right. exists r. auto.
      * left. reflexivity.
    + unfold with_device_channels; cbn [device_channels].
      rewrite filter_app, length_app. rewrite device_channel_row_key in Hr.
      rewrite (one_row_none_short _ Hr (Huniq _ _)). cbn.
      unfold dc_key; cbn. rewrite !String.eqb_refl. reflexivity.
Qed.

Lemma assignChannel_then_getDeviceChannel_witness :
  exists s', assignChannel (mkAssignment "production" "d2" "com.example.app" "ios") Fixture.store2
               = (Ok tt, s') /\
             getDeviceChannel s' "d2" "com.example.app" = "production".
Proof.
  apply (assignChannel_then_getDeviceChannel (mkAssignment "production" "d2" "com.example.app" "ios")
           Fixture.store2 "u1" (Fixture.prod false)); try reflexivity.
  - intros r c' Hin Hd. simpl in Hin. destruct Hin as [<-|[]]. simpl in Hd. discriminate.
  - intros d c. unfold dc_key. simpl. destruct (_ && _); simpl; lia.
Defined.

(** X12: [logStats] for an unknown app returns normally and writes nothing. *)
Theorem logStats_unknown_app st s :
  resolveAppUuid s (ServiceRest.st_appId st) = None ->
  ServiceRest.logStats st s = (Ok tt, s).
Proof. intros H. unfold ServiceRest.logStats, bind, get, ret; cbn. rewrite H. reflexivity. Qed.

Lemma logStats_unknown_app_witness :
  ServiceRest.logStats
    (ServiceRest.mkStatsRequest (Some "v2") None (Some "set") "d1" "com.other.app" "android" None)
    Fixture.store2 = (Ok tt, Fixture.store2).
Proof.
  apply (logStats_unknown_app
    (ServiceRest.mkStatsRequest (Some "v2") None (Some "set") "d1" "com.other.app" "android" None)
    Fixture.store2).
  reflexivity.
Defined.

(** X13: for a known app, [logStats] appends exactly one [update_logs] row whose [new_version] is [bundleId || version_name || "unknown"] and whose [action] is [action || status || "unknown"]. *)
Theorem logStats_appends_log st s u :
  resolveAppUuid s (ServiceRest.st_appId st) = Some u ->
  writable s "update_logs" = true ->
  update_logs (snd (ServiceRest.logStats st s)) =
    update_logs s ++
    [mkUpdateLog (ServiceRest.st_deviceId st) u None
       (or_str (ServiceRest.st_bundleId st) (or_str (ServiceRest.st_version_name st) "unknown"))
       (ServiceRest.st_platform st)
       (or_str (ServiceRest.st_action st) (or_str (ServiceRest.st_status st) "unknown"))].
Proof.
  intros Hu Hw. unfold ServiceRest.logStats. unfold bind at 1, get at 1; cbn.
  rewrite Hu, snd_bind. unfold insert_update_log at 1. rewrite Hw. cbn [fst snd].
  unfold bind, get, ret.
  destruct (one_row _) as [c|]; [|reflexivity].
  destruct (device_channel_row _ _ (ch_id c)); [reflexivity|].
  unfold insert_device_channel. rewrite writable_with_update_logs.
  destruct (writable s "device_channels"); reflexivity.
Qed.

Lemma logStats_appends_log_witness :
  update_logs (snd (ServiceRest.logStats
    (ServiceRest.mkStatsRequest None (Some "") (Some "") "d1" "com.example.app" "android" None)
    Fixture.store2)) =
  update_logs Fixture.store2 ++ [mkUpdateLog "d1" "u1" None "unknown" "android" "unknown"].
Proof.
  apply (logStats_appends_log
    (ServiceRest.mkStatsRequest None (Some "") (Some "") "d1" "com.example.app" "android" None)
    Fixture.store2 "u1"); reflexivity.
Defined.

(** X14: when the app has exactly one channel named ["stable"] and writes succeed, [logStats] returns normally and the device then has a row on that channel. *)
Theorem logStats_registers_on_stable st s u c :
  resolveAppUuid s (ServiceRest.st_appId st) = Some u ->
  one_row (filter (fun c0 => String.eqb (ch_app_id c0) u && String.eqb (ch_name c0) "stable")
                  (channels s)) = Some c ->
  writable s "update_logs" = true -> writable s "device_channels" = true ->
  exists s', ServiceRest.logStats st s = (Ok tt, s') /\
    exists r, In r (device_channels s') /\
      dc_device_id r = ServiceRest.st_deviceId st /\ dc_channel_id r = ch_id c.
Proof.
  intros Hu Hc Hw1 Hw2. unfold ServiceRest.logStats, bind, get, ret; cbn.
  rewrite Hu. unfold insert_update_log. rewrite Hw1. cbn. rewrite Hc.
  destruct (device_channel_row _ _ (ch_id c)) as [r|] eqn:Hr.
  - eexists; split; [reflexivity|]. exists r.
    apply one_row_In, filter_In in Hr as [Hin Hk].
    apply andb_true_iff in Hk as [K1 K2]. apply String.eqb_eq in K1, K2. auto.
  - unfold insert_device_channel. rewrite writable_with_update_logs, Hw2.
    eexists; split; [reflexivity|].
    eexists. split; [apply in_or_app; right; left; reflexivity|]. cbn. auto.
Qed.

Lemma logStats_registers_on_stable_witness :
  exists s', ServiceRest.logStats
      (ServiceRest.mkStatsRequest (Some "v2") None (Some "set") "d9" "com.example.app" "ios" None)
      (mkStore [mkApp "u1" "com.example.app"] [mkChannel "c3" "u1" "stable" None true false]
         [] [] [] 0 [])
    = (Ok tt, s') /\
    exists r, In r (device_channels s') /\ dc_device_id r = "d9" /\ dc_channel_id r = "c3".
Proof.
  apply (logStats_registers_on_stable
    (ServiceRest.mkStatsRequest (Some "v2") None (Some "set") "d9" "com.example.app" "ios" None)
    (mkStore [mkApp "u1" "com.example.app"] [mkChannel "c3" "u1" "stable" None true false]
       [] [] [] 0 [])
    "u1" (mkChannel "c3" "u1" "stable" None true false)); reflexivity.
Defined.

(** X15: [getAvailableChannels] of the Supabase service lists exactly the channels of the app, each with its own stored [is_public] and [allow_device_self_set] flags; an unknown app gives no channel. *)
Theorem getAvailableChannels_reads_flags s appIdString i :
  In i (ServiceRest.getAvailableChannels s appIdString) <->
  exists u c, resolveAppUuid s appIdString = Some u /\ In c (channels s) /\ ch_app_id c = u /\
    i = Legacy.mkChannelInfo (ch_id c) (ch_name c)
          (Some (is_public c)) (Some (allow_device_self_set c)).
Proof.
  unfold ServiceRest.getAvailableChannels.
  destruct (resolveAppUuid s appIdString) as [u|]; split.
  - intros Hi. apply in_map_iff in Hi as (c & <- & Hc).
    apply filter_In in Hc as [Hc Hk]. apply String.eqb_eq in Hk.
    exists u, c. auto.
  - intros (u' & c & Hu & Hc & Ha & ->). injection Hu as <-.
    apply in_map_iff. exists c. split; [reflexivity|].
    apply filter_In. split; [exact Hc|]. apply String.eqb_eq. exact Ha.
  - intros [].
  - intros (u' & c & Hu & _). discriminate.
Qed.

(** X16: the [getDeviceChannel] of updateService.ts returns ["stable"] for every query: it tests [result.length] on the [{ data, count }] object, which has no [length]. *)
Theorem legacy_getDeviceChannel_always_stable s deviceId appId platform :
  LegacyDevices.getDeviceChannel s deviceId appId platform = "stable".
Proof. reflexivity. Qed.

(** X17: the [assignChannel] of updateService.ts keeps at most one row per (app, device), and after it succeeds that row holds the assigned channel and platform. *)
Theorem legacy_assignChannel_single_row channel deviceId appId platform s s' :
  l_unique s ->
  LegacyDevices.assignChannel channel deviceId appId platform s = LegacyDevices.LOk s' ->
  l_unique s' /\
  exists i, filter (l_key appId deviceId) (LegacyDevices.l_rows s') =
            [LegacyDevices.mkLDeviceChannel i appId deviceId channel platform].
Proof.
  intros H E. unfold LegacyDevices.assignChannel in E. rewrite l_matching_key in E.
  pose proof (H appId deviceId) as H1.
  destruct (filter (l_key appId deviceId) (LegacyDevices.l_rows s)) as [|e [|e' l]] eqn:L;
    cbn in E, H1; [| |lia].
  - destruct (l_insert_row_unique _ _ _ _ _ _ H L E) as [U R]. split; [exact U|]. eexists. exact R.
  - destruct (LegacyDevices.l_writable s _); [|discriminate]. injection E as <-.
    assert (He : In e (filter (l_key appId deviceId) (LegacyDevices.l_rows s)))
      by (rewrite L; left; reflexivity).
    apply filter_In in He as [_ Hk]. unfold l_key in Hk.
    apply andb_true_iff in Hk as [K1 K2]. apply String.eqb_eq in K1, K2.
    assert (Hg : forall a d x, l_key a d
      (if Nat.eqb (LegacyDevices.l_id x) (LegacyDevices.l_id e)
       then LegacyDevices.mkLDeviceChannel (LegacyDevices.l_id x) (LegacyDevices.l_app_id x)
              (LegacyDevices.l_device_id x) channel platform else x) = l_key a d x)
      by (intros a d x; destruct (Nat.eqb _ _); reflexivity).
    split.
    + intros a d. cbn [LegacyDevices.l_rows]. rewrite length_filter_map_eq by apply Hg. apply H.
    + exists (LegacyDevices.l_id e). cbn [LegacyDevices.l_rows].
      rewrite filter_map_same by apply Hg. rewrite L. cbn.
      rewrite Nat.eqb_refl, K1, K2. reflexivity.
Qed.

Lemma legacy_assignChannel_single_row_witness :
  l_unique (LegacyDevices.mkLStore [LegacyDevices.mkLDeviceChannel 0 "app" "d1" "beta" "ios"] 1 [] []) /\
  exists i, filter (l_key "app" "d1")
    (LegacyDevices.l_rows
       (LegacyDevices.mkLStore [LegacyDevices.mkLDeviceChannel 0 "app" "d1" "beta" "ios"] 1 [] [])) =
    [LegacyDevices.mkLDeviceChannel i "app" "d1" "beta" "ios"].
Proof.
  apply (legacy_assignChannel_single_row "beta" "d1" "app" "ios"
    (LegacyDevices.mkLStore [LegacyDevices.mkLDeviceChannel 0 "app" "d1" "stable" "android"] 1 [] [])
    (LegacyDevices.mkLStore [LegacyDevices.mkLDeviceChannel 0 "app" "d1" "beta" "ios"] 1 [] []));
    [|reflexivity].
  intros a d. unfold l_key. simpl. destruct (_ && _); simpl; lia.
Defined.

(** X18: the [logStats] of updateService.ts keeps at most one row per (app, device): it inserts a ["stable"] row only for an unregistered device and leaves the rows unchanged otherwise. *)
Theorem legacy_logStats_registers_once st s s' :
  l_unique s ->
  LegacyDevices.logStats st s = LegacyDevices.LOk s' ->
  l_unique s' /\
  match filter (l_key (LegacyDevices.lst_appId st) (LegacyDevices.lst_deviceId st))
               (LegacyDevices.l_rows s) with
  | [] => exists i,
      filter (l_key (LegacyDevices.lst_appId st) (LegacyDevices.lst_deviceId st))
             (LegacyDevices.l_rows s') =
      [LegacyDevices.mkLDeviceChannel i (LegacyDevices.lst_appId st) (LegacyDevices.lst_deviceId st)
         "stable" (LegacyDevices.lst_platform st)]
  | _ :: _ => LegacyDevices.l_rows s' = LegacyDevices.l_rows s
  end.
Proof.
  intros H E. unfold LegacyDevices.logStats in E.
  destruct (negb (LegacyDevices.l_writable s _)); [discriminate|].
  rewrite l_matching_key in E. cbn [LegacyDevices.l_rows] in E.
  destruct (filter (l_key _ _) (LegacyDevices.l_rows s)) as [|e l] eqn:L; cbn in E.
  - apply l_insert_row_unique in E; [|exact H|exact L].
    destruct E as [U R]. split; [exact U|]. eexists. exact R.
  - injection E as <-. split; [exact H|reflexivity].
Qed.

Lemma legacy_logStats_registers_once_witness :
  l_unique (LegacyDevices.mkLStore [LegacyDevices.mkLDeviceChannel 0 "app" "d1" "stable" "web"] 1
              [LegacyDevices.mkLStat "unknown" "set" "set" "d1" "app" "web"] []) /\
  exists i, filter (l_key "app" "d1")
    (LegacyDevices.l_rows
       (LegacyDevices.mkLStore [LegacyDevices.mkLDeviceChannel 0 "app" "d1" "stable" "web"] 1
          [LegacyDevices.mkLStat "unknown" "set" "set" "d1" "app" "web"] [])) =
    [LegacyDevices.mkLDeviceChannel i "app" "d1" "stable" "web"].
Proof.
  apply (legacy_logStats_registers_once
    (LegacyDevices.mkLegacyStats None (Some "set") None "d1" "app" "web" None)
    (LegacyDevices.mkLStore [] 0 [] [])
    (LegacyDevices.mkLStore [LegacyDevices.mkLDeviceChannel 0 "app" "d1" "stable" "web"] 1
       [LegacyDevices.mkLStat "unknown" "set" "set" "d1" "app" "web"] []));
    [|reflexivity].
  intros a d. simpl. lia.
Defined.

(** ** Further properties: [normalizeRequestFields] *)
Import JSObj FieldNormalizer NormalizerFacts.

(** X19: after [normalizeRequestFields], for each pair of [FIELD_MAPPINGS] the snake_case and the camelCase key are both present exactly when either was present in the body. *)
Theorem normalizeBody_pairs_present b :
  Forall (fun m => has (fst m) (normalizeBody b) = has (fst m) b || has (snd m) b /\
                   has (snd m) (normalizeBody b) = has (fst m) b || has (snd m) b)
         FIELD_MAPPINGS.
Proof. apply pairs_present_aux. Qed.

(** X20: after [normalizeRequestFields], a key of a mapped pair keeps its own value when it was in the body, and otherwise takes the value of its partner. *)
Theorem normalizeBody_pair_values b :
  Forall (fun m => get (snd m) (normalizeBody b) =
                     (if has (snd m) b then get (snd m) b else get (fst m) b) /\
                   get (fst m) (normalizeBody b) =
                     (if has (fst m) b then get (fst m) b else get (snd m) b))
         FIELD_MAPPINGS.
Proof.
  apply Forall_forall. intros m Hm.
  destruct (mappings_not_action_status m Hm) as (F1 & F2 & S1 & S2).
  destruct (pair_loops b m Hm) as (_ & _ & P3 & P4).
  unfold normalizeBody.
  rewrite (proj2 (action_status_other _ _ F1 F2)), (proj2 (action_status_other _ _ S1 S2)).
  rewrite P3, P4. split; [reflexivity|].
  destruct (has (fst m) b) eqn:H1, (has (snd m) b) eqn:H2; try reflexivity.
  rewrite !get_absent by assumption. reflexivity.
Qed.

(** X21: after [normalizeRequestFields], [action] is the body's [action] if truthy, else its [status] if truthy; [status] symmetrically. *)
Theorem normalizeBody_action_status b :
  get "action" (normalizeBody b) =
    (if truthy (get "action" b) then get "action" b
     else if truthy (get "status" b) then get "status" b else get "action" b) /\
  get "status" (normalizeBody b) =
    (if truthy (get "status" b) then get "status" b
     else if truthy (get "action" b) then get "action" b else get "status" b).
Proof. apply action_status_aux. Qed.

(** X22: [normalizeRequestFields] neither adds, removes nor changes any key other than the mapped ones, [action] and [status]. *)
Theorem normalizeBody_other_keys b k :
  ~ In k mapped_keys -> k <> "action" -> k <> "status" ->
  has k (normalizeBody b) = has k b /\ get k (normalizeBody b) = get k b.
Proof.
  intros Hk H1 H2. unfold normalizeBody.
  destruct (action_status_other k (to_snake (to_camel b)) H1 H2) as [E1 E2].
  destruct (other_loops b k Hk) as [L1 L2].
  rewrite E1, E2, L1, L2. split; reflexivity.
Qed.

Lemma normalizeBody_other_keys_witness :
  has "channel" (normalizeBody [("app_id", JStr "com.example.app"); ("channel", JStr "beta")]) =
    has "channel" [("app_id", JStr "com.example.app"); ("channel", JStr "beta")] /\
  get "channel" (normalizeBody [("app_id", JStr "com.example.app"); ("channel", JStr "beta")]) =
    get "channel" [("app_id", JStr "com.example.app"); ("channel", JStr "beta")].
Proof.
  apply (normalizeBody_other_keys [("app_id", JStr "com.example.app"); ("channel", JStr "beta")]
           "channel");
    [vm_compute; intuition discriminate|discriminate|discriminate].
Defined.

(** X23: [normalizeRequestFields] is idempotent on request bodies. *)
Theorem normalizeBody_idempotent b : normalizeBody (normalizeBody b) = normalizeBody b.
Proof.
  set (n := normalizeBody b).
  pose proof (pairs_present_aux b) as P. rewrite Forall_forall in P. fold n in P.
  assert (T : truthy (get "action" n) = truthy (get "status" n)).
  { destruct (action_status_aux b) as [A S]. unfold n. rewrite A, S.
    destruct (truthy (get "action" b)) eqn:Ta, (truthy (get "status" b)) eqn:Ts;
      rewrite ?Ta, ?Ts; reflexivity. }
  unfold normalizeBody at 1.
  rewrite to_camel_loop, loop_noop.
  - rewrite to_snake_loop, loop_noop.
    + unfold action_status. rewrite T.
      destruct (truthy (get "status" n)) eqn:E; cbn [andb negb]; rewrite ?E, ?T;
        cbn [andb negb]; reflexivity.
    + intros m Hm. apply in_map_iff in Hm as (x & <- & Hx). cbn.
      destruct (P x Hx) as [E1 E2]. rewrite E1, E2. auto.
  - intros m Hm. destruct (P m Hm) as [E1 E2]. rewrite E1, E2. auto.
Qed.

